(** * signac: synced JSON collections and the document store

    A shallow embedding of [signac/core/jsoncollection.py] (the JSON
    backend of the synced collections) together with the parts of the
    synchronization framework and of the document store that the
    properties below talk about.

    Layout:
    - [Json]       plain structures and the [json] library codec
    - [Posixpath]  [os.path.split] and [os.path.join]
    - [Filesystem] files, primitive file operations and their traces
    - [JSONCollection] the backend: [__init__], [_load], [_sync],
                   [_write_to_cache], [_sync_from_buffer]
    - [NodeCache]  per-root identity cache of nested nodes
    - [Collection] the document store: matcher, index, open modes
    - [Py]         Python values: items, iteration, truth, exceptions
    - [Admin]      [compdb/contrib/admin.py]: roles, user names, the
                   generators over a reply of [usersInfo], [update_user]
    - [Connection] [signac/common/connection.py]: the connector and the
                   subject of a certificate
    - [Host]       [signac/common/host.py]: host configurations and
                   [check_credentials] *)

From Stdlib Require Import ZArith Ascii String List Bool Lia.
From stdpp Require Import base option gmap strings list fin_maps pretty infinite.

Set Warnings "-register-all,-clear-no-such-hyp".

Local Open Scope string_scope.
Local Open Scope Z_scope.

(** ** Plain structures and their JSON text *)

Module Json.

(** What [to_base] produces and [json.dumps] accepts: scalars, sequences
    and mappings with string keys.  A mapping keeps its items in insertion
    order, as a Python [dict] does. *)
Inductive json : Type :=
  | JNull
  | JBool (b : bool)
  | JNum (z : Z)
  | JStr (s : string)
  | JList (l : list json)
  | JDict (m : list (string * json)).

(** Induction with the hypotheses for the elements of a sequence and the
    values of a mapping. *)
Section json_rect_nested.
Variable P : json -> Prop.
Hypothesis HNull : P JNull.
Hypothesis HBool : forall b, P (JBool b).
Hypothesis HNum : forall z, P (JNum z).
Hypothesis HStr : forall s, P (JStr s).
Hypothesis HList : forall l, Forall P l -> P (JList l).
Hypothesis HDict : forall m, Forall (fun kv => P (snd kv)) m -> P (JDict m).

Fixpoint json_ind_nested (j : json) : P j :=
  match j with
  | JNull => HNull
  | JBool b => HBool b
  | JNum z => HNum z
  | JStr s => HStr s
  | JList l =>
      HList l ((fix go (l : list json) : Forall P l :=
                  match l with
                  | [] => @List.Forall_nil _ P
                  | x :: r =>
                      @List.Forall_cons _ P x r (json_ind_nested x) (go r)
                  end) l)
  | JDict m =>
      HDict m ((fix go (m : list (string * json))
                  : Forall (fun kv => P (snd kv)) m :=
                  match m with
                  | [] => @List.Forall_nil _ _
                  | kv :: r =>
                      @List.Forall_cons _ (fun kv => P (snd kv)) kv r
                        (json_ind_nested (snd kv)) (go r)
                  end) m)
  end.
End json_rect_nested.

(** Structural equality, the [==] of two plain structures. *)
Fixpoint json_eqb (x y : json) : bool :=
  match x, y with
  | JNull, JNull => true
  | JBool a, JBool b => Bool.eqb a b
  | JNum a, JNum b => Z.eqb a b
  | JStr a, JStr b => String.eqb a b
  | JList a, JList b =>
      (fix go (a b : list json) : bool :=
         match a, b with
         | [], [] => true
         | x :: a', y :: b' => json_eqb x y && go a' b'
         | _, _ => false
         end) a b
  | JDict a, JDict b =>
      (fix go (a b : list (string * json)) : bool :=
         match a, b with
         | [], [] => true
         | (k, x) :: a', (k', y) :: b' =>
             String.eqb k k' && json_eqb x y && go a' b'
         | _, _ => false
         end) a b
  | _, _ => false
  end.

(** [is_base_type]: the data a synced collection can hold at its top, a
    mapping ([JSONDict]) or a sequence ([JSONList]). *)
Definition is_collection (j : json) : bool :=
  match j with
  | JList _ | JDict _ => true
  | _ => false
  end.

(** *** [json.dumps]

    The default formatting of Python's [json.dumps]: items separated by
    [", "], keys from values by [": "], strings in double quotes.  The
    model covers integers and strings of printable ASCII, where the only
    escapes are those of the quote and of the backslash. *)

Fixpoint escape (s : string) : string :=
  match s with
  | EmptyString => EmptyString
  | String c r =>
      if Ascii.eqb c "034"%char then String "\"%char (String c (escape r))
      else if Ascii.eqb c "\"%char then String "\"%char (String c (escape r))
      else String c (escape r)
  end.

Definition dquote : string := String "034"%char EmptyString.

Definition quote (s : string) : string := dquote +:+ escape s +:+ dquote.

Fixpoint json_dumps (j : json) : string :=
  match j with
  | JNull => "null"
  | JBool true => "true"
  | JBool false => "false"
  | JNum z => pretty z
  | JStr s => quote s
  | JList l =>
      "[" +:+
      (fix go (l : list json) : string :=
         match l with
         | [] => EmptyString
         | [x] => json_dumps x
         | x :: r => json_dumps x +:+ ", " +:+ go r
         end) l +:+ "]"
  | JDict m =>
      "{" +:+
      (fix go (m : list (string * json)) : string :=
         match m with
         | [] => EmptyString
         | [(k, x)] => quote k +:+ ": " +:+ json_dumps x
         | (k, x) :: r => quote k +:+ ": " +:+ json_dumps x +:+ ", " +:+ go r
         end) m +:+ "}"
  end.

(** *** [json.loads]

    A recursive-descent reader of the same fragment.  [None] stands for
    [json.JSONDecodeError]. *)

Definition is_ws (c : ascii) : bool :=
  Ascii.eqb c " "%char || Ascii.eqb c "010"%char
  || Ascii.eqb c "013"%char || Ascii.eqb c "009"%char.

Fixpoint skip_ws (s : string) : string :=
  match s with
  | String c r => if is_ws c then skip_ws r else s
  | EmptyString => s
  end.

Fixpoint strip_prefix (p s : string) : option string :=
  match p, s with
  | EmptyString, _ => Some s
  | String a p', String b s' =>
      if Ascii.eqb a b then strip_prefix p' s' else None
  | String _ _, EmptyString => None
  end.

Definition digit_of (c : ascii) : option Z :=
  let n := Z.of_nat (nat_of_ascii c) in
  if (48 <=? n) && (n <=? 57) then Some (n - 48) else None.

(** Reads the digits at the head of [s] onto the accumulator. *)
Fixpoint read_digits (acc : Z) (s : string) : Z * string :=
  match s with
  | String c r =>
      match digit_of c with
      | Some d => read_digits (10 * acc + d) r
      | None => (acc, s)
      end
  | EmptyString => (acc, s)
  end.

Definition starts_with_digit (s : string) : bool :=
  match s with
  | String c _ => bool_decide (is_Some (digit_of c))
  | EmptyString => false
  end.

Definition read_int (s : string) : option (Z * string) :=
  match s with
  | String "-"%char r =>
      if starts_with_digit r
      then let '(n, r') := read_digits 0 r in Some (- n, r')
      else None
  | _ =>
      if starts_with_digit s then Some (read_digits 0 s) else None
  end.

(** Reads a string body up to its closing quote. *)
Fixpoint read_string (s : string) : option (string * string) :=
  match s with
  | EmptyString => None
  | String c r =>
      if Ascii.eqb c "034"%char then Some (EmptyString, r)
      else if Ascii.eqb c "\"%char then
        match r with
        | String e r' =>
            if Ascii.eqb e "034"%char || Ascii.eqb e "\"%char then
              match read_string r' with
              | Some (t, rest) => Some (String e t, rest)
              | None => None
              end
            else None
        | EmptyString => None
        end
      else
        match read_string r with
        | Some (t, rest) => Some (String c t, rest)
        | None => None
        end
  end.

Fixpoint read_value (fuel : nat) (s : string) : option (json * string) :=
  match fuel with
  | O => None
  | S fuel =>
      let s := skip_ws s in
      match s with
      | EmptyString => None
      | String c r =>
          if Ascii.eqb c "n"%char then
            r' ← strip_prefix "null" s; Some (JNull, r')
          else if Ascii.eqb c "t"%char then
            r' ← strip_prefix "true" s; Some (JBool true, r')
          else if Ascii.eqb c "f"%char then
            r' ← strip_prefix "false" s; Some (JBool false, r')
          else if Ascii.eqb c "034"%char then
            '(t, r') ← read_string r; Some (JStr t, r')
          else if Ascii.eqb c "["%char then
            match skip_ws r with
            | String "]"%char r' => Some (JList [], r')
            | _ => '(l, r') ← read_items fuel r; Some (JList l, r')
            end
          else if Ascii.eqb c "{"%char then
            match skip_ws r with
            | String "}"%char r' => Some (JDict [], r')
            | _ => '(m, r') ← read_members fuel r; Some (JDict m, r')
            end
          else
            '(z, r') ← read_int s; Some (JNum z, r')
      end
  end
with read_items (fuel : nat) (s : string) : option (list json * string) :=
  match fuel with
  | O => None
  | S fuel =>
      '(x, r) ← read_value fuel s;
      match skip_ws r with
      | String ","%char r' =>
          '(l, r'') ← read_items fuel r'; Some (x :: l, r'')
      | String "]"%char r' => Some ([x], r')
      | _ => None
      end
  end
with read_members (fuel : nat) (s : string)
       : option (list (string * json) * string) :=
  match fuel with
  | O => None
  | S fuel =>
      match skip_ws s with
      | String "034"%char r =>
          '(k, r1) ← read_string r;
          match skip_ws r1 with
          | String ":"%char r2 =>
              '(x, r3) ← read_value fuel r2;
              match skip_ws r3 with
              | String ","%char r4 =>
                  '(m, r5) ← read_members fuel r4; Some ((k, x) :: m, r5)
              | String "}"%char r4 => Some ([(k, x)], r4)
              | _ => None
              end
          | _ => None
          end
      | _ => None
      end
  end.

Definition json_loads (s : string) : option json :=
  match read_value (2 * String.length s + 2) s with
  | Some (j, r) =>
      match skip_ws r with
      | EmptyString => Some j
      | _ => None
      end
  | None => None
  end.

End Json.

(** ** [os.path] on POSIX paths *)

Module Posixpath.

Definition sep : ascii := "/"%char.

Fixpoint has_sep (s : string) : bool :=
  match s with
  | EmptyString => false
  | String c r => Ascii.eqb c sep || has_sep r
  end.

Fixpoint all_sep (s : string) : bool :=
  match s with
  | EmptyString => true
  | String c r => Ascii.eqb c sep && all_sep r
  end.

Definition starts_with_sep (s : string) : bool :=
  match s with
  | String c _ => Ascii.eqb c sep
  | EmptyString => false
  end.

Fixpoint ends_with_sep (s : string) : bool :=
  match s with
  | EmptyString => false
  | String c EmptyString => Ascii.eqb c sep
  | String _ r => ends_with_sep r
  end.

(** [(p[:i], p[i:])] for [i = p.rfind(sep) + 1]. *)
Fixpoint rsplit_sep (p : string) : string * string :=
  match p with
  | EmptyString => (EmptyString, EmptyString)
  | String c r =>
      match rsplit_sep r with
      | (EmptyString, t) =>
          if Ascii.eqb c sep then (String c EmptyString, t)
          else (EmptyString, String c t)
      | (h, t) => (String c h, t)
      end
  end.

(** [s.rstrip(sep)] *)
Fixpoint rstrip_sep (s : string) : string :=
  match s with
  | EmptyString => EmptyString
  | String c r =>
      match rstrip_sep r with
      | EmptyString =>
          if Ascii.eqb c sep then EmptyString else String c EmptyString
      | r' => String c r'
      end
  end.

(** [posixpath.split]:
    [head, tail = p[:i], p[i:]];
    [if head and head != sep*len(head): head = head.rstrip(sep)]. *)
Definition split (p : string) : string * string :=
  let '(head, tail) := rsplit_sep p in
  match head with
  | EmptyString => (head, tail)
  | _ => if all_sep head then (head, tail) else (rstrip_sep head, tail)
  end.

(** [posixpath.join] of two components. *)
Definition join (a b : string) : string :=
  if starts_with_sep b then b
  else match a with
       | EmptyString => a +:+ b
       | _ => if ends_with_sep a then a +:+ b
              else a +:+ String sep EmptyString +:+ b
       end.

End Posixpath.

(** ** Files *)

Module Filesystem.

(** A regular file: its bytes, its modification time and whether this
    process may open it for reading. *)
Record file := File {
  f_bytes : string;
  f_mtime : Z;
  f_readable : bool
}.

(** The directory tree, flattened: absolute path to file. *)
Abbreviation fs := (gmap string file).

Inductive errno := ENOENT | EACCES.

(** [open(p, 'rb')] followed by [read()]. *)
Definition open_rb (d : fs) (p : string) : errno + string :=
  match d !! p with
  | None => inl ENOENT
  | Some f => if f_readable f then inr (f_bytes f) else inl EACCES
  end.

(** The system calls behind a write.  [open(p, 'wb')] creates or truncates;
    the bytes then reach the file one after the other, so that an observer
    may see every prefix of them; [os.replace] renames in one step.
    Creating and writing are taken to succeed: directories and write
    permissions are not part of the model. *)
Inductive fs_op :=
  | OpCreat (p : string)
  | OpAppend (p : string) (c : ascii)
  | OpReplace (src dst : string).

Definition fs_step (now : Z) (d : fs) (o : fs_op) : fs :=
  match o with
  | OpCreat p =>
      <[p := File EmptyString now
               (match d !! p with Some f => f_readable f | None => true end)]> d
  | OpAppend p c =>
      alter (fun f => File (f_bytes f +:+ String c EmptyString) now
                        (f_readable f)) p d
  | OpReplace src dst =>
      match d !! src with
      | Some f => <[dst := f]> (delete src d)
      | None => d
      end
  end.

(** The state after all of [ops], the clock advancing with every call. *)
Fixpoint run (now : Z) (d : fs) (ops : list fs_op) : fs :=
  match ops with
  | [] => d
  | o :: r => run (now + 1) (fs_step now d o) r
  end.

(** Every state another process can observe while [ops] run. *)
Fixpoint states (now : Z) (d : fs) (ops : list fs_op) : list fs :=
  match ops with
  | [] => [d]
  | o :: r => d :: states (now + 1) (fs_step now d o) r
  end.

Fixpoint appends (p : string) (blob : string) : list fs_op :=
  match blob with
  | EmptyString => []
  | String c r => OpAppend p c :: appends p r
  end.

(** [with open(p, 'wb') as f: f.write(blob)] *)
Definition write_ops (p : string) (blob : string) : list fs_op :=
  OpCreat p :: appends p blob.

(** What a reader of [p] sees in state [d]. *)
Definition content (d : fs) (p : string) : option string :=
  f_bytes <$> d !! p.

(** Size and modification time, the fingerprint of a file; a path
    without file has none. *)
Definition metadata : Type := Z * Z.

Definition stat (d : fs) (p : string) : option metadata :=
  (fun f => (Z.of_nat (String.length (f_bytes f)), f_mtime f)) <$> d !! p.

End Filesystem.

(** ** The JSON backend: [signac/core/jsoncollection.py] *)

Module JSONCollection.
Import Json Posixpath Filesystem.

(** Exceptions, by class. *)
Inductive exn :=
  | ValueError
  | TypeError
  | KeyError
  | JSONDecodeError
  | IOError (e : errno).

Inductive result (A : Type) : Type :=
  | Ok (a : A)
  | Raise (e : exn).
Arguments Ok {A} a.
Arguments Raise {A} e.

#[global] Instance result_bind : MBind result := fun A B k r =>
  match r with
  | Ok a => k a
  | Raise e => Raise e
  end.

(** [self._backend_kwargs] *)
Record backend_kwargs := Kwargs {
  kw_filename : option string;
  kw_write_concern : bool
}.

(** [JSONDict] or [JSONList], the two registered classes. *)
Inductive kind := KDict | KList.

Definition empty_of (cls : kind) : json :=
  match cls with
  | KDict => JDict []
  | KList => JList []
  end.

(** A node.  Python's [None] is [JNull] where a plain structure is
    expected and [None] where a reference is. *)
Inductive node := Node {
  _filename : option string;
  _parent : option node;
  _data : json;
  _backend_kwargs : backend_kwargs
}.

(** The process: its file system and clock, the results [uuid.uuid4()] is
    going to give, and the write buffer. *)
Record world := World {
  w_fs : fs;
  w_clock : Z;
  w_uuid : nat -> string;
  w_uuid_next : nat;
  w_cache : gmap string string;
  w_buffer : gmap string (backend_kwargs * option metadata);
  w_buffered : bool
}.

Definition set_fs (w : world) (d : fs) (now : Z) : world :=
  World d now (w_uuid w) (w_uuid_next w) (w_cache w) (w_buffer w)
    (w_buffered w).

Definition set_cache (w : world) (c : gmap string string) : world :=
  World (w_fs w) (w_clock w) (w_uuid w) (w_uuid_next w) c (w_buffer w)
    (w_buffered w).

Definition set_buffer (w : world)
    (b : gmap string (backend_kwargs * option metadata)) : world :=
  World (w_fs w) (w_clock w) (w_uuid w) (w_uuid_next w) (w_cache w) b
    (w_buffered w).

(** [uuid.uuid4()] *)
Definition uuid4 (w : world) : string * world :=
  (w_uuid w (w_uuid_next w),
   World (w_fs w) (w_clock w) (w_uuid w) (S (w_uuid_next w)) (w_cache w)
     (w_buffer w) (w_buffered w)).

Definition is_None {A} (o : option A) : bool :=
  match o with
  | None => true
  | Some _ => false
  end.

Definition is_null (j : json) : bool :=
  match j with
  | JNull => true
  | _ => false
  end.

Section backend.

(** [os.path.realpath], which depends on the links of the file system. *)
Variable realpath : string -> string.

(** [_get_filemetadata] of [buffered_collection], imported at the top of
    the module: the probe of a file's metadata, [None] or a tuple. *)
Variable _get_filemetadata : fs -> string -> option metadata.

(** Modelled from the spec: [to_base] of [SyncedCollection], not under
    src/: "produces a fully-detached plain copy of the current snapshot". *)
Definition to_base (self : node) : json := _data self.

(** The file name of the temporary file of [_sync]. *)
Definition fn_tmp (filename uid : string) : string :=
  let '(dirname, fn) := split filename in
  join dirname ("._" +:+ uid +:+ "_" +:+ fn).

(** The file operations of [_sync], by its two branches. *)
Definition _sync_ops (write_concern : bool) (filename uid blob : string)
    : list fs_op :=
  if write_concern then
    write_ops (fn_tmp filename uid) blob
    ++ [OpReplace (fn_tmp filename uid) filename]
  else
    write_ops filename blob.

(** [JSONCollection._sync(self, data=None)].  The text that
    [json.dumps] gives is ASCII, and [encode()] leaves it as it is. *)
Definition _sync (self : node) (data : json) (w : world) : result world :=
  let data := if is_null data then to_base self else data in
  let blob := json_dumps data in
  match _filename self with
  | None => Raise TypeError
  | Some filename =>
      if kw_write_concern (_backend_kwargs self) then
        let '(uid, w) := uuid4 w in
        let ops := _sync_ops true filename uid blob in
        Ok (set_fs w (run (w_clock w) (w_fs w) ops)
              (w_clock w + Z.of_nat (length ops)))
      else
        let ops := _sync_ops false filename EmptyString blob in
        Ok (set_fs w (run (w_clock w) (w_fs w) ops)
              (w_clock w + Z.of_nat (length ops)))
  end.

(** The states of the file system that another process can observe while
    [_sync] runs, the first being the one [_sync] starts from. *)
Definition _sync_observable (self : node) (data : json) (w : world)
    : list fs :=
  let data := if is_null data then to_base self else data in
  let blob := json_dumps data in
  match _filename self with
  | None => [w_fs w]
  | Some filename =>
      if kw_write_concern (_backend_kwargs self) then
        let '(uid, w) := uuid4 w in
        states (w_clock w) (w_fs w) (_sync_ops true filename uid blob)
      else
        states (w_clock w) (w_fs w)
          (_sync_ops false filename EmptyString blob)
  end.

(** [JSONCollection._load(self)].  The handler of [IOError] returns in
    one case only; in the others the function ends without a [return]
    and its value is [None]. *)
Definition _load (self : node) (w : world) : result json :=
  match _filename self with
  | None => Raise TypeError
  | Some filename =>
      match open_rb (w_fs w) filename with
      | inr blob =>
          match json_loads blob with
          | Some j => Ok j
          | None => Raise JSONDecodeError
          end
      | inl ENOENT => Ok JNull
      | inl _ => Ok JNull
      end
  end.

(** [JSONCollection._write_to_cache(self, cache=None, data=None)], on the
    cache of the process. *)
Definition _write_to_cache (self : node) (data : json) (w : world)
    : result world :=
  let data := if is_null data then to_base self else data in
  match _filename self with
  | None => Raise TypeError
  | Some filename =>
      Ok (set_cache w (<[filename := json_dumps data]> (w_cache w)))
  end.

(** [JSONCollection._read_from_cache(self, cache=None)] *)
Definition _read_from_cache (self : node) (w : world) : result json :=
  match _filename self with
  | None => Raise TypeError
  | Some filename =>
      match w_cache w !! filename with
      | None => Ok JNull
      | Some data =>
          match json_loads data with
          | Some j => Ok j
          | None => Raise JSONDecodeError
          end
      end
  end.

(** [JSONCollection._get_metadata(filename)] *)
Definition _get_metadata (w : world) (filename : string) : option metadata :=
  _get_filemetadata (w_fs w) filename.

(** Modelled from the spec: [_store_in_buffer] of [buffered_collection],
    not under src/: "records current metadata(resource), stores the pair
    keyed by resource identity, overwriting any prior pending entry for
    that resource". *)
Definition _store_in_buffer (id : string) (kwargs : backend_kwargs)
    (md : option metadata) (w : world) : world :=
  set_buffer w (<[id := (kwargs, md)]> (w_buffer w)).

(** [JSONCollection._write_to_buffer(self)] *)
Definition _write_to_buffer (self : node) (w : world) : result world :=
  match _filename self with
  | None => Raise TypeError
  | Some filename =>
      Ok (_store_in_buffer filename (_backend_kwargs self)
            (_get_metadata w filename) w)
  end.

(** Modelled from the spec: [sync] of [SyncedCollection], not under src/:
    a nested node routes the synchronization to its root; the root
    "either synchronizes immediately through the Backend Adapter
    (unbuffered mode) or stages into the Write Buffer (buffered mode)",
    staging being "serializes snapshot, records current metadata". *)
Fixpoint sync (self : node) (w : world) : result world :=
  match _parent self with
  | Some parent => sync parent w
  | None =>
      if w_buffered w then
        w ← _write_to_cache self JNull w;
        _write_to_buffer self w
      else _sync self JNull w
  end.

(** [JSONCollection.__init__(self, filename=None, data=None,
    write_concern=False, **kwargs)], with [parent] the one keyword that
    [super().__init__] reads.  Modelled from the spec:
    the constructor of the base class, not under src/, keeps the parent and the
    initial data, an absent [data] giving the empty container. *)
Definition __init__ (cls : kind) (filename : option string) (data : json)
    (write_concern : bool) (parent : option node) (w : world)
    : result (node * world) :=
  let filename' := realpath <$> filename in
  let data' := if is_null data then empty_of cls else data in
  if Bool.eqb (is_None filename) (is_None parent) then Raise ValueError
  else
    let self := Node filename' parent data' (Kwargs filename' write_concern) in
    if negb (is_null data) then
      w ← sync self w; Ok (self, w)
    else Ok (self, w).

(** The node that [__init__] returns for its arguments. *)
Definition built (cls : kind) (filename : option string) (data : json)
    (write_concern : bool) (parent : option node) : node :=
  Node (realpath <$> filename) parent
    (if is_null data then empty_of cls else data)
    (Kwargs (realpath <$> filename) write_concern).

(** Modelled from the spec: [from_base] of [SyncedCollection], not under
    src/: "constructs a new root or nested node pre-populated with data",
    of the class registered for the type of [data], through the
    constructor above.  Data that is neither a mapping nor a sequence has
    no node. *)
Definition from_base (data : json) (kwargs : backend_kwargs) (w : world)
    : result (node * world) :=
  match data with
  | JDict _ =>
      __init__ KDict (kw_filename kwargs) data (kw_write_concern kwargs) None w
  | JList _ =>
      __init__ KList (kw_filename kwargs) data (kw_write_concern kwargs) None w
  | _ => Raise TypeError
  end.

(** [JSONCollection._sync_from_buffer(cls, id, backend_kwargs, cache,
    metadata=None)], [cache] being the cache of the process. *)
Definition _sync_from_buffer (id : string) (kwargs : backend_kwargs)
    (md : option metadata) (w : world) : result (bool * world) :=
  let stale :=
    match md with
    | Some m => negb (bool_decide (Some m = _get_metadata w id))
    | None => false
    end in
  if stale then Ok (false, w)
  else
    match w_cache w !! id with
    | None => Raise KeyError
    | Some blob =>
        match json_loads blob with
        | None => Raise JSONDecodeError
        | Some data =>
            '(n, w) ← from_base data kwargs w;
            w ← _sync n JNull w;
            Ok (true, w)
        end
    end.

(** Modelled from the spec: [flush_one] of the Write Buffer, not under
    src/: "if no entry pending, no-op succeeds trivially"; otherwise the
    entry leaves the buffer ("removed when flushed", "discard the entry")
    and the backend's [_sync_from_buffer] decides the outcome. *)
Definition flush_one (id : string) (w : world) : result (bool * world) :=
  match w_buffer w !! id with
  | None => Ok (true, w)
  | Some (kwargs, md) =>
      _sync_from_buffer id kwargs md (set_buffer w (delete id (w_buffer w)))
  end.

End backend.

End JSONCollection.

(** ** Nested nodes and their identity *)

Module NodeCache.
Import Json.

(** One step into a structure: a key of a mapping or an index of a
    sequence. *)
Definition key : Type := string + nat.
Definition path : Type := list key.

Fixpoint assoc (k : string) (m : list (string * json)) : option json :=
  match m with
  | [] => None
  | (k', x) :: r => if String.eqb k k' then Some x else assoc k r
  end.

Definition child (k : key) (j : json) : option json :=
  match k, j with
  | inl s, JDict m => assoc s m
  | inr i, JList l => l !! i
  | _, _ => None
  end.

(** The value reached from [j] along [p]. *)
Fixpoint walk (p : path) (j : json) : option json :=
  match p with
  | [] => Some j
  | k :: r => match child k j with
              | Some x => walk r x
              | None => None
              end
  end.

(** Modelled from the spec: the root of a tree of synced nodes, whose
    class is not under src/.  It holds the snapshot and "an explicit
    per-root cache from path to child instance"; an instance is known by
    its identity, the [id()] of the object, taken from [r_next] when the
    instance is made. *)
Record root := Root {
  r_data : json;
  r_children : gmap path nat;
  r_next : nat
}.

(** What a read gives: a scalar by value, a container as a node. *)
Inductive item :=
  | Scalar (v : json)
  | Child (identity : nat).

Inductive error := MissingKey.

(** Modelled from the spec: "reading a key/index whose value is itself a
    container returns a Synced Node bound to (root, path+key), retrieved
    from (or inserted into) the root's per-path identity cache"; "reading
    an absent key fails with MissingKey". *)
Definition read (p : path) (r : root) : error + item * root :=
  match walk p (r_data r) with
  | None => inl MissingKey
  | Some v =>
      if is_collection v then
        match r_children r !! p with
        | Some i => inr (Child i, r)
        | None =>
            inr (Child (r_next r),
                 Root (r_data r) (<[p := r_next r]> (r_children r))
                   (S (r_next r)))
        end
      else inr (Scalar v, r)
  end.

(** Modelled from the spec: a mutation applies "to the in-memory
    snapshot"; here the assignment of a key of the root mapping. *)
Definition assign (k : string) (v : json) (r : root) : root :=
  match r_data r with
  | JDict m =>
      Root (JDict ((k, v) :: filter (fun kv => negb (String.eqb k (fst kv))) m))
        (r_children r) (r_next r)
  | _ => r
  end.

(** Modelled from the spec: "reload invalidates the whole per-root child
    cache"; [data] is what the backend holds. *)
Definition reload (data : json) (r : root) : root :=
  Root data ∅ (r_next r).

Inductive op :=
  | Read (p : path)
  | Assign (k : string) (v : json)
  | Reload (data : json).

Definition is_reload (o : op) : bool :=
  match o with
  | Reload _ => true
  | _ => false
  end.

Definition step (r : root) (o : op) : root :=
  match o with
  | Read p => match read p r with
              | inr (_, r') => r'
              | inl _ => r
              end
  | Assign k v => assign k v r
  | Reload data => reload data r
  end.

Definition steps (r : root) (ops : list op) : root := foldl step r ops.

End NodeCache.

(** ** The document store *)

Module Collection.
Import Json.

(** A document: the items of a mapping.  Its primary key is the field
    the tests ([tests/test_collection.py]) write as ['_id']. *)
Definition document : Type := list (string * json).

Definition primary_key : string := "_id".

Fixpoint assoc (k : string) (m : list (string * json)) : option json :=
  match m with
  | [] => None
  | (k', x) :: r => if String.eqb k k' then Some x else assoc k r
  end.

(** [field.split('.')] *)
Fixpoint split_dots (s : string) : list string :=
  match s with
  | EmptyString => [EmptyString]
  | String c r =>
      if Ascii.eqb c "."%char then EmptyString :: split_dots r
      else match split_dots r with
           | h :: t => String c h :: t
           | [] => [String c EmptyString]
           end
  end.

(** The value found in [j] under the chain of keys [ks]. *)
Fixpoint get_path (ks : list string) (j : json) : option json :=
  match ks with
  | [] => Some j
  | k :: r =>
      match j with
      | JDict m => match assoc k m with
                   | Some x => get_path r x
                   | None => None
                   end
      | _ => None
      end
  end.

(** Modelled from the spec: the filter of [find], whose class is not
    under src/: "a mapping of field paths to expected values", where a
    compound field is written with "dotted-path keys" or with
    "nested-mapping keys".  Both are brought to one form, the chain of
    keys down to each expected value. *)
Fixpoint flatten (prefix : list string) (v : json)
    : list (list string * json) :=
  match v with
  | JDict ((k, x) :: m) =>
      (flatten (prefix ++ split_dots k) x ++
       (fix go (m : list (string * json)) : list (list string * json) :=
          match m with
          | [] => []
          | (k, x) :: m => flatten (prefix ++ split_dots k) x ++ go m
          end) m)%list
  | _ => [(prefix, v)]
  end.

Definition flatten_filter (f : list (string * json))
    : list (list string * json) :=
  flat_map (fun kv => flatten (split_dots (fst kv)) (snd kv)) f.

(** A document matches when every expected value is found. *)
Definition matches (f : list (string * json)) (d : document) : bool :=
  forallb (fun pv => match get_path (fst pv) (JDict d) with
                     | Some x => json_eqb x (snd pv)
                     | None => false
                     end) (flatten_filter f).

(** A secondary index: field value to the set of ids. *)
Definition index_t : Type := list (json * gset string).

Fixpoint index_add (v : json) (i : string) (idx : index_t) : index_t :=
  match idx with
  | [] => [(v, {[i]})]
  | (v', s) :: r =>
      if json_eqb v v' then (v', {[i]} ∪ s) :: r
      else (v', s) :: index_add v i r
  end.

(** [index.get(v, set())] *)
Fixpoint index_get (idx : index_t) (v : json) : gset string :=
  match idx with
  | [] => ∅
  | (v', s) :: r => if json_eqb v v' then s else index_get r v
  end.

(** Modelled from the spec: "construct it by scanning all documents,
    grouping ids by the value found at field (same dotted/nested-path
    resolution as find)". *)
Definition build_index (docs : gmap string document) (field : string)
    : index_t :=
  foldr (fun e idx => match get_path (split_dots field) (JDict (snd e)) with
                      | Some v => index_add v (fst e) idx
                      | None => idx
                      end) [] (map_to_list docs).

Inductive open_mode := InMemory | ModeRead | ModeWrite | ModeAppend.

Inductive error :=
  | InvalidKeyType
  | InvalidAssignment
  | MissingKey
  | DuplicateIdentifier
  | DisallowedOperation
  | NotReady.

(** Modelled from the spec: the store handle, whose class is not under
    src/: the open mode, the records in memory, the indexes built since
    the last mutation, whether memory holds a mutation that is not
    persisted, and the lines of the file behind the handle. *)
Record store := Store {
  mode : open_mode;
  docs : gmap string document;
  indexes : gmap string index_t;
  dirty : bool;
  lines : list string;
  closed : bool
}.

Definition empty : store := Store InMemory ∅ ∅ false [] false.

(** A mutation: new records, no index left, memory ahead of the file. *)
Definition mutate (s : store) (d : gmap string document) : store :=
  Store (mode s) d ∅ true (lines s) (closed s).

(** Modelled from the spec: "if doc has no id, generate a fresh unique
    string id; if it has one, fail with DuplicateIdentifier when already
    present.  Returns the id used." *)
Definition insert_one (d : document) (s : store) : error + string * store :=
  match assoc primary_key d with
  | None =>
      let i := fresh (dom (docs s)) in
      inr (i, mutate s (<[i := (primary_key, JStr i) :: d]> (docs s)))
  | Some (JStr i) =>
      match docs s !! i with
      | Some _ => inl DuplicateIdentifier
      | None => inr (i, mutate s (<[i := d]> (docs s)))
      end
  | Some _ => inl InvalidKeyType
  end.

(** The matching records, in the order of iteration of the store. *)
Definition matching (f : list (string * json)) (s : store)
    : list (string * document) :=
  List.filter (fun e => matches f (snd e)) (map_to_list (docs s)).

Definition truncate {A} (limit : option nat) (l : list A) : list A :=
  match limit with
  | Some n => take n l
  | None => l
  end.

(** Modelled from the spec: [find(filter, limit)]: the matching documents
    "truncated to limit if given"; "querying after such an in-memory
    mutation in read mode fails with NotReady". *)
Definition find (f : list (string * json)) (limit : option nat) (s : store)
    : error + list document :=
  match mode s with
  | ModeRead => if dirty s then inl NotReady
                else inr (truncate limit (map snd (matching f s)))
  | _ => inr (truncate limit (map snd (matching f s)))
  end.

Definition find_one (f : list (string * json)) (s : store)
    : error + option document :=
  match find f (Some 1%nat) s with
  | inl e => inl e
  | inr l => inr (head l)
  end.

(** Modelled from the spec: "remove the first matching document;
    removing zero documents is not an error". *)
Definition delete_one (f : list (string * json)) (s : store) : store :=
  match matching f s with
  | (i, _) :: _ => mutate s (delete i (docs s))
  | [] => s
  end.

(** Modelled from the spec: "replaces the first document matching filter
    with replacement, preserving or assigning its id". *)
Definition replace_one (f : list (string * json)) (d : document) (s : store)
    : error + store :=
  match matching f s with
  | (i, _) :: _ =>
      match assoc primary_key d with
      | None => inr (mutate s (<[i := (primary_key, JStr i) :: d]> (docs s)))
      | Some j => if json_eqb j (JStr i)
                  then inr (mutate s (<[i := d]> (docs s)))
                  else inl InvalidAssignment
      end
  | [] => inr s
  end.

(** Modelled from the spec: "if a validated index for field already
    exists, return it; if absent and build is false, fail with
    MissingKey; if build is true, construct it". *)
Definition index (field : string) (build : bool) (s : store)
    : error + index_t * store :=
  match indexes s !! field with
  | Some idx => inr (idx, s)
  | None =>
      if build then
        let idx := build_index (docs s) field in
        inr (idx, Store (mode s) (docs s) (<[field := idx]> (indexes s))
                    (dirty s) (lines s) (closed s))
      else inl MissingKey
  end.

(** One serialized record per line. *)
Definition dump (d : gmap string document) : list string :=
  map (fun e => json_dumps (JDict (snd e))) (map_to_list d).

(** Modelled from the spec: [flush()] "durably rewrites the full record
    set"; under [read] it fails with DisallowedOperation.  A handle
    without unpersisted mutation has nothing to write
    ([FileCollectionTestReadOnly.test_read] closes one). *)
Definition flush (s : store) : error + store :=
  if dirty s then
    match mode s with
    | ModeRead => inl DisallowedOperation
    | InMemory => inr s
    | _ => inr (Store (mode s) (docs s) (indexes s) false (dump (docs s))
                  (closed s))
    end
  else inr s.

(** Modelled from the spec: [close()] "flushes (where permitted) and
    releases the handle". *)
Definition close (s : store) : error + store :=
  match flush s with
  | inl e => inl e
  | inr s' => inr (Store (mode s') (docs s') (indexes s') (dirty s')
                     (lines s') true)
  end.

(** The records of a file, by id. *)
Fixpoint load_lines (l : list string) : option (gmap string document) :=
  match l with
  | [] => Some ∅
  | x :: r =>
      match json_loads x, load_lines r with
      | Some (JDict d), Some m =>
          match assoc primary_key d with
          | Some (JStr i) => Some (<[i := d]> m)
          | _ => None
          end
      | _, _ => None
      end
  end.

(** Modelled from the spec: [open(path, mode)]: "write truncates/creates,
    append opens for combined append-and-read, read opens without
    permitting persistence"; [file] is what the path holds. *)
Definition open (file : list string) (m : open_mode) : option store :=
  match m with
  | ModeWrite => Some (Store ModeWrite ∅ ∅ false [] false)
  | InMemory => Some empty
  | _ => match load_lines file with
         | Some d => Some (Store m d ∅ false file false)
         | None => None
         end
  end.

(** An index is right for the records when it maps every value to
    exactly the ids of the documents that have it at the field. *)
Definition index_ok (d : gmap string document) (field : string)
    (idx : index_t) : Prop :=
  forall (v : json) (i : string),
    i ∈ index_get idx v
    <-> exists doc, d !! i = Some doc
          /\ get_path (split_dots field) (JDict doc) = Some v.

(** "Validated": the indexes a handle holds are right for its records. *)
Definition valid (s : store) : Prop :=
  forall (field : string) (idx : index_t),
    indexes s !! field = Some idx -> index_ok (docs s) field idx.

End Collection.

(** ** Concrete processes *)

Module Examples.
Import Json Filesystem JSONCollection.

(** Paths that are canonical already. *)
Definition canonical (p : string) : string := p.

Definition uuids (n : nat) : string := "9f1c-" +:+ pretty n.

Definition target : string := "/work/data.json".

(** Nothing on disk, nothing buffered. *)
Definition fresh_world : world :=
  World ∅ 100 uuids 0 ∅ ∅ false.

Definition buffered_world : world :=
  World ∅ 100 uuids 0 ∅ ∅ true.

(** A root bound to [target], with and without write concern. *)
Definition root (wc : bool) (data : json) : node :=
  Node (Some target) None data (Kwargs (Some target) wc).

(** The target exists but may not be read. *)
Definition unreadable_world : world :=
  World {[target := File "{}" 42 false]} 100 uuids 0 ∅ ∅ false.

(** An entry staged at metadata [(2, 42)] for a file that still has it. *)
Definition pending_world : world :=
  World {[target := File "{}" 42 true]} 100 uuids 0
    {[target := "[1, 2]"]}
    {[target := (Kwargs (Some target) true, Some (2, 42))]} false.

(** The same entry after another process rewrote the file. *)
Definition conflict_world : world :=
  World {[target := File "[7]" 57 true]} 100 uuids 0
    {[target := "[1, 2]"]}
    {[target := (Kwargs (Some target) true, Some (2, 42))]} false.

(** An entry staged without metadata, and a file written since. *)
Definition unrecorded_world : world :=
  World {[target := File "[7]" 57 true]} 100 uuids 0
    {[target := "[1, 2]"]}
    {[target := (Kwargs (Some target) false, None)]} false.

(** A root mapping with one nested, empty mapping under ["a"]
    ([test_set_get_explicit_nested]). *)
Definition nested_root : NodeCache.root :=
  NodeCache.Root (JDict [("a", JDict [])]) ∅ 0.

Definition path_a : NodeCache.path := [inl "a"].

(** The documents [{'_id': '0', 'a': {'b': 0}}] and
    [{'_id': '1', 'a': {'b': 1}}] ([test_find_nested]). *)
Definition nested_docs : gmap string Collection.document :=
  {[ "0" := [("_id", JStr "0"); ("a", JDict [("b", JNum 0)])];
     "1" := [("_id", JStr "1"); ("a", JDict [("b", JNum 1)])] ]}.

Definition nested_store : Collection.store :=
  Collection.mutate Collection.empty nested_docs.

(** The file of [FileCollectionTestReadOnly], with two records, and the
    handle that reading it gives. *)
Definition two_lines : list string :=
  [json_dumps (JDict [("_id", JStr "0")]);
   json_dumps (JDict [("_id", JStr "1")])].

Definition read_handle : Collection.store :=
  Collection.Store Collection.ModeRead
    {[ "0" := [("_id", JStr "0")]; "1" := [("_id", JStr "1")] ]}
    ∅ false two_lines false.

End Examples.


(** ** Python values and their operations *)

Module Py.
Import Json.

(** Exceptions, by class. *)
Inductive exn :=
  | KeyError
  | TypeError
  | ValueError
  | AttributeError
  | RuntimeError
  | IndexError
  | EOFError
  | AssertionError
  | ConfigError.

Inductive result (A : Type) : Type :=
  | Ok (a : A)
  | Raise (e : exn).
Arguments Ok {A} a.
Arguments Raise {A} e.

#[global] Instance result_bind : MBind result := fun A B k r =>
  match r with
  | Ok a => k a
  | Raise e => Raise e
  end.

Fixpoint assoc (k : string) (m : list (string * json)) : option json :=
  match m with
  | [] => None
  | (k', x) :: r => if String.eqb k k' then Some x else assoc k r
  end.

(** [j[k]] for a string [k]: a mapping has the item or raises
    [KeyError]; nothing else is indexed by a string. *)
Definition getitem (j : json) (k : string) : result json :=
  match j with
  | JDict m => match assoc k m with
               | Some x => Ok x
               | None => Raise KeyError
               end
  | _ => Raise TypeError
  end.

Fixpoint chars (s : string) : list json :=
  match s with
  | EmptyString => []
  | String c r => JStr (String c EmptyString) :: chars r
  end.

(** [for x in j]: the elements of a sequence, the keys of a mapping, the
    characters of a string. *)
Definition iter (j : json) : result (list json) :=
  match j with
  | JList l => Ok l
  | JDict m => Ok (map (fun kv => JStr (fst kv)) m)
  | JStr s => Ok (chars s)
  | _ => Raise TypeError
  end.

(** [bool(j)] *)
Definition truth (j : json) : bool :=
  match j with
  | JNull => false
  | JBool b => b
  | JNum z => negb (z =? 0)
  | JStr EmptyString => false
  | JStr _ => true
  | JList [] => false
  | JList _ => true
  | JDict [] => false
  | JDict _ => true
  end.

(** [j in strs] for a tuple or list of strings. *)
Definition in_strs (j : json) (strs : list string) : bool :=
  match j with
  | JStr s => bool_decide (s ∈ strs)
  | _ => false
  end.

(** What a generator gives when it is run to its end: the values it
    yields and, if it stops by an exception, that exception. *)
Definition generated : Type := list json * option exn.

End Py.

(** ** The administration tool: [compdb/contrib/admin.py] *)

Module Admin.
Import Json Py.

(** The arguments as [setup_parser] declares them: [user] is a string
    (or [None] when the function is called otherwise), [--ssl] and
    [--password] are flags, [--readonly] exists for [add] only and [role]
    for [grant] and [revoke] only.  An attribute that does not exist is
    [None] here. *)
Record args := Args {
  a_user : option string;
  a_ssl : bool;
  a_password : bool;
  a_readonly : option bool;
  a_role : option string
}.

Definition set_role (a : args) (r : string) : args :=
  Args (a_user a) (a_ssl a) (a_password a) (a_readonly a) (Some r).

Definition LEGAL_ROLES : list string := ["read"; "readWrite"].

(** [get_roles(args)], with the arguments as it leaves them. *)
Definition get_roles (a : args) : result (list string) * args :=
  let a := match a_readonly a with
           | Some true => set_role a "read"
           | Some false => set_role a "readWrite"
           | None => a
           end in
  match a_role a with
  | None => (Raise AttributeError, a)
  | Some r =>
      if bool_decide (r ∈ LEGAL_ROLES) then (Ok [r], a)
      else (Raise ValueError, a)
  end.

(** [get_db_auth(client, args)]: the name of the database asked for. *)
Definition get_db_auth (a : args) : string :=
  if a_ssl a then "$external" else "admin".

Section externals.

(** [os.path.isfile] *)
Variable isfile : string -> bool.

(** [get_subject_from_certificate] of [core.utility], which runs
    [openssl]. *)
Variable get_subject_from_certificate : string -> result string.

(** [get_username(args)]; the function ends without a [return] when
    [--ssl] is given and the user is no file. *)
Definition get_username (a : args) : result (option string) :=
  match a_user a with
  | None => Ok None
  | Some user =>
      if a_ssl a then
        if isfile user then
          s ← get_subject_from_certificate user; Ok (Some s)
        else Ok None
      else Ok (Some user)
  end.

End externals.

(** [collect_users(info, dbs)], a generator. *)
Fixpoint any_role_in (roles : list json) (dbs : list string) : result bool :=
  match roles with
  | [] => Ok false
  | role :: r =>
      match getitem role "db" with
      | Raise e => Raise e
      | Ok db => if in_strs db dbs then Ok true else any_role_in r dbs
      end
  end.

Fixpoint collect_users_from (entries : list json) (dbs : list string)
    : generated :=
  match entries with
  | [] => ([], None)
  | entry :: r =>
      match (roles ← getitem entry "roles"; l ← iter roles;
             any_role_in l dbs) with
      | Raise e => ([], Some e)
      | Ok false => collect_users_from r dbs
      | Ok true =>
          match getitem entry "user" with
          | Raise e => ([], Some e)
          | Ok u => let '(ys, e) := collect_users_from r dbs in (u :: ys, e)
          end
      end
  end.

Definition collect_users (info : json) (dbs : list string) : generated :=
  match (us ← getitem info "users"; iter us) with
  | Raise e => ([], Some e)
  | Ok entries => collect_users_from entries dbs
  end.

(** [collect_roles(info, dbs, username)], a generator. *)
Fixpoint roles_in (roles : list json) (dbs : list string) : generated :=
  match roles with
  | [] => ([], None)
  | entry :: r =>
      match getitem entry "db" with
      | Raise e => ([], Some e)
      | Ok db =>
          if in_strs db dbs then
            match getitem entry "role" with
            | Raise e => ([], Some e)
            | Ok x => let '(ys, e) := roles_in r dbs in (x :: ys, e)
            end
          else roles_in r dbs
      end
  end.

Fixpoint collect_roles_from (entries : list json) (dbs : list string)
    (username : json) : generated :=
  match entries with
  | [] => ([], None)
  | users :: r =>
      match getitem users "user" with
      | Raise e => ([], Some e)
      | Ok u =>
          if json_eqb u username then
            match (roles ← getitem users "roles"; iter roles) with
            | Raise e => ([], Some e)
            | Ok l =>
                match roles_in l dbs with
                | (ys, Some e) => (ys, Some e)
                | (ys, None) =>
                    let '(zs, e) := collect_roles_from r dbs username in
                    ((ys ++ zs)%list, e)
                end
            end
          else collect_roles_from r dbs username
      end
  end.

Definition collect_roles (info : json) (dbs : list string) (username : json)
    : generated :=
  match (us ← getitem info "users"; iter us) with
  | Raise e => ([], Some e)
  | Ok entries => collect_roles_from entries dbs username
  end.

(** A reply of [usersInfo] read as records: every entry has a string
    under ['user'] and a list under ['roles'], every role a string under
    ['role'] and under ['db']; other items are allowed. *)
Record role_entry := RoleEntry { re_role : string; re_db : string }.
Record user_entry := UserEntry { ue_user : string; ue_roles : list role_entry }.

Definition decode_role (j : json) : option role_entry :=
  match j with
  | JDict m =>
      match assoc "role" m, assoc "db" m with
      | Some (JStr r), Some (JStr d) => Some (RoleEntry r d)
      | _, _ => None
      end
  | _ => None
  end.

Definition decode_user (j : json) : option user_entry :=
  match j with
  | JDict m =>
      match assoc "user" m, assoc "roles" m with
      | Some (JStr u), Some (JList l) =>
          rs ← mapM decode_role l; Some (UserEntry u rs)
      | _, _ => None
      end
  | _ => None
  end.

Definition decode_info (j : json) : option (list user_entry) :=
  match j with
  | JDict m =>
      match assoc "users" m with
      | Some (JList l) => mapM decode_user l
      | _ => None
      end
  | _ => None
  end.

Definition has_role_in (dbs : list string) (u : user_entry) : bool :=
  existsb (fun r => bool_decide (re_db r ∈ dbs)) (ue_roles u).

(** What the process reads and writes while a command runs. *)
Inductive event :=
  | Getpass (prompt : string)
  | Print (text : string)
  | Command (db name : string) (arg : option string) (pwd : option string).

(** The lines still to be typed at the password prompt, and what has
    happened so far. *)
Record env := Env {
  typed : list string;
  trace : list event
}.

Definition io (A : Type) : Type := env -> result A * env.

Definition emit (ev : event) : io unit :=
  fun e => (Ok tt, Env (typed e) (trace e ++ [ev])).

(** [getpass.getpass(prompt)] *)
Definition getpass (prompt : string) : io string :=
  fun e =>
    match typed e with
    | [] => (Raise EOFError, Env [] (trace e ++ [Getpass prompt]))
    | x :: r => (Ok x, Env r (trace e ++ [Getpass prompt]))
    end.

Definition io_bind {A B} (m : io A) (k : A -> io B) : io B :=
  fun e =>
    match m e with
    | (Ok a, e') => k a e'
    | (Raise x, e') => (Raise x, e')
    end.

Definition io_ret {A} (a : A) : io A := fun e => (Ok a, e).
Definition io_raise {A} (x : exn) : io A := fun e => (Raise x, e).
Definition io_lift {A} (r : result A) : io A := fun e => (r, e).

(** [prompt_password(msg)] *)
Definition prompt_password (msg : string) : io string :=
  io_bind (getpass msg) (fun pwd =>
  io_bind (getpass "Confirm password: ") (fun pwd2 =>
  if bool_decide (pwd = pwd2) then io_ret pwd else io_raise ValueError)).

(** [str(x)] of a string or [None]. *)
Definition str_of (x : option string) : string :=
  match x with
  | Some s => s
  | None => "None"
  end.

Section update.

Variable isfile : string -> bool.
Variable get_subject_from_certificate : string -> result string.

(** [get_project(args)] and [get_client(project)], which load the
    configuration and connect. *)
Variable project : Type.
Variable get_project : args -> result project.
Variable get_client : project -> result unit.

(** The reply of the database to a command. *)
Variable reply :
  string -> string -> option string -> option string -> result json.

(** [db.command(name, arg, pwd = pwd)] *)
Definition command (db name : string) (arg pwd : option string) : io json :=
  io_bind (emit (Command db name arg pwd)) (fun _ =>
  io_lift (reply db name arg pwd)).

(** [update_user(args)] *)
Definition update_user (a : args) : io unit :=
  io_bind (io_lift (get_project a)) (fun p =>
  io_bind (io_lift (get_client p)) (fun _ =>
  io_bind (io_lift (get_username isfile get_subject_from_certificate a))
    (fun username =>
  if a_password a && a_ssl a then io_raise ValueError
  else if a_password a then
    io_bind (prompt_password
               ("Enter new password for user '" +:+ str_of username
                +:+ "': ")) (fun pwd =>
    io_bind (command "admin" "updateUser" username (Some pwd)) (fun res =>
    io_bind (io_lift (getitem res "ok")) (fun ok =>
    if truth ok then emit (Print "OK.") else io_raise RuntimeError)))
  else io_raise ValueError))).

(** [user_exists(client, args, db_auth = None)] *)
Definition user_exists (a : args) : io bool :=
  io_bind (io_lift (get_username isfile get_subject_from_certificate a))
    (fun username =>
  io_bind (command (get_db_auth a) "usersInfo" username None) (fun info =>
  io_bind (io_lift (getitem info "users")) (fun us =>
  io_ret (truth us)))).

End update.

End Admin.


(** ** The database connector: [signac/common/connection.py] *)

Module Connection.
Import Json Py.

Definition AUTH_NONE : string := "none".
Definition AUTH_SCRAM_SHA_1 : string := "SCRAM-SHA-1".
Definition AUTH_SSL : string := "SSL".
Definition AUTH_SSL_x509 : string := "SSL-x509".

Inductive cert_reqs := CERT_NONE | CERT_OPTIONAL | CERT_REQUIRED.

(** [SSL_CERT_REQS[j]]: a list or a mapping cannot be a key at all. *)
Definition SSL_CERT_REQS (j : json) : result cert_reqs :=
  match j with
  | JStr s =>
      if String.eqb s "none" then Ok CERT_NONE
      else if String.eqb s "optional" then Ok CERT_OPTIONAL
      else if String.eqb s "required" then Ok CERT_REQUIRED
      else Raise KeyError
  | JList _ | JDict _ => Raise TypeError
  | _ => Raise KeyError
  end.

(** A configuration names one of the four mechanisms. *)
Definition connectable (cfg : list (string * json)) : Prop :=
  exists m, assoc "auth_mechanism" cfg = Some (JStr m)
    /\ m ∈ [AUTH_NONE; AUTH_SCRAM_SHA_1; AUTH_SSL; AUTH_SSL_x509].

(** [c.isspace()] on ASCII. *)
Definition is_space (c : ascii) : bool :=
  let n := nat_of_ascii c in
  (Nat.leb 9 n && Nat.leb n 13) || (Nat.leb 28 n && Nat.leb n 32).

Fixpoint lstrip (s : string) : string :=
  match s with
  | String c r => if is_space c then lstrip r else s
  | EmptyString => s
  end.

Fixpoint rstrip (s : string) : string :=
  match s with
  | EmptyString => EmptyString
  | String c r =>
      match rstrip r with
      | EmptyString => if is_space c then EmptyString else String c EmptyString
      | r' => String c r'
      end
  end.

(** [s.strip()] *)
Definition strip (s : string) : string := rstrip (lstrip s).

(** [s.split(newline)[0]] *)
Fixpoint first_line (s : string) : string :=
  match s with
  | EmptyString => EmptyString
  | String c r =>
      if Ascii.eqb c "010"%char then EmptyString else String c (first_line r)
  end.

(** How the call of [openssl] ends: with its output, with
    [CalledProcessError], or with another exception. *)
Inductive process :=
  | Output (text : string)
  | CalledProcessError
  | Failed (e : exn).

(** [get_subject_from_certificate(fn_certificate)] *)
Definition get_subject_from_certificate (check_output : string -> process)
    (fn_certificate : string) : result string :=
  match check_output fn_certificate with
  | CalledProcessError => Raise RuntimeError
  | Failed e => Raise e
  | Output cert_txt =>
      match strip_prefix "subject=" (first_line cert_txt) with
      | Some rest => Ok (strip rest)
      | None => Raise AssertionError
      end
  end.

(** The keyword arguments of [pymongo.MongoClient]. *)
Record ssl_args := SslArgs {
  ssl_keyfile : string;
  ssl_certfile : string;
  ssl_cert_reqs : cert_reqs;
  ssl_ca_certs : string;
  ssl_match_hostname : json
}.

Record mongo_args := MongoArgs {
  m_host : json;
  m_ssl : option ssl_args;
  m_connectTimeoutMS : json
}.

(** The calls that leave the process. *)
Inductive call :=
  | CallMongoClient (a : mongo_args)
  | CallOpenssl (fn : string)
  | CallAuthenticate (db user : json) (pwd : option json) (mechanism : string)
  | CallLogout (db : json).

Section connector.

(** What [pymongo] and the operating system answer. *)
Variable client : Type.
Variable MongoClient : mongo_args -> result client.
Variable db_authenticate :
  client -> json -> json -> option json -> string -> result unit.
Variable db_logout : client -> json -> result unit.
Variable expanduser : string -> string.
Variable check_output : string -> process.

(** Set when the module is imported. *)
Variable PYMONGO_AVAILABLE : bool.
Variable PYMONGO_3 : bool.

(** A [DBClientConnector], with the calls it has made so far. *)
Record connector := Connector {
  _config : list (string * json);
  _client : option client;
  calls : list call
}.

Definition op (A : Type) : Type := connector -> result A * connector.

Definition bind {A B} (m : op A) (k : A -> op B) : op B :=
  fun c =>
    match m c with
    | (Ok a, c') => k a c'
    | (Raise x, c') => (Raise x, c')
    end.

Definition ret {A} (a : A) : op A := fun c => (Ok a, c).
Definition raise {A} (x : exn) : op A := fun c => (Raise x, c).
Definition lift {A} (r : result A) : op A := fun c => (r, c).

Definition record (x : call) : op unit :=
  fun c => (Ok tt, Connector (_config c) (_client c) (calls c ++ [x])).

(** What one call of [connect] may do to a connector: the configuration
    stays; a success goes with one call of [MongoClient] and its client;
    a failure leaves the client, with no call made or with the call that
    raised. *)
Definition outcome (c : connector) (r : result unit) (c' : connector)
    : Prop :=
  _config c' = _config c
  /\ (r = Ok tt ->
      exists a x, MongoClient a = Ok x
        /\ _client c' = Some x
        /\ calls c' = (calls c ++ [CallMongoClient a])%list)
  /\ (forall e, r = Raise e ->
      _client c' = _client c
      /\ (calls c' = calls c
          \/ exists a, MongoClient a = Raise e
               /\ calls c' = (calls c ++ [CallMongoClient a])%list)).

(** [DBClientConnector.__init__(self, host_config)] *)
Definition __init__ (host_config : list (string * json)) : connector :=
  Connector host_config None [].

(** The property [client] *)
Definition get_client : op client :=
  fun c =>
    match _client c with
    | None => (Raise RuntimeError, c)
    | Some x => (Ok x, c)
    end.

Definition set_client (x : client) : op unit :=
  fun c => (Ok tt, Connector (_config c) (Some x) (calls c)).

(** [self._config_get(key, default)] *)
Definition _config_get (key : string) (default : json) : op json :=
  fun c =>
    (Ok (match assoc key (_config c) with
         | Some x => x
         | None => default
         end), c).

(** [self._config_get_required(key)] *)
Definition _config_get_required (key : string) : op json :=
  fun c =>
    match assoc key (_config c) with
    | Some x => (Ok x, c)
    | None => (Raise KeyError, c)
    end.

(** The property [host] *)
Definition host : op json := _config_get_required "url".

(** [expanduser(j)], which takes a string. *)
Definition expand (j : json) : op string :=
  match j with
  | JStr s => ret (expanduser s)
  | _ => raise TypeError
  end.

Definition mongo (a : mongo_args) : op client :=
  bind (record (CallMongoClient a)) (fun _ => lift (MongoClient a)).

(** [raise_unsupported_auth_mechanism(mechanism)] *)
Definition raise_unsupported_auth_mechanism {A} (mechanism : json) : op A :=
  raise ValueError.

(** [DBClientConnector._connect_pymongo3(self, host)] *)
Definition _connect_pymongo3 (h : json) : op unit :=
  bind (_config_get "connect_timeout_ms" JNull) (fun timeout =>
  bind (_config_get "auth_mechanism" JNull) (fun auth_mechanism =>
  if in_strs auth_mechanism [AUTH_NONE; AUTH_SCRAM_SHA_1] then
    bind (mongo (MongoArgs h None timeout)) set_client
  else if in_strs auth_mechanism [AUTH_SSL; AUTH_SSL_x509] then
    bind (bind (_config_get_required "ssl_keyfile") expand) (fun keyfile =>
    bind (bind (_config_get_required "ssl_certfile") expand) (fun certfile =>
    bind (bind (_config_get "ssl_cert_reqs" (JStr "required"))
            (fun j => lift (SSL_CERT_REQS j))) (fun reqs =>
    bind (bind (_config_get_required "ssl_ca_certs") expand) (fun ca =>
    bind (_config_get "ssl_match_hostname" (JBool true)) (fun mh =>
    bind (mongo (MongoArgs h (Some (SslArgs keyfile certfile reqs ca mh))
                   timeout)) set_client)))))
  else raise_unsupported_auth_mechanism auth_mechanism)).

(** [DBClientConnector._connect_pymongo2(self, host)] *)
Definition _connect_pymongo2 (h : json) : op unit :=
  bind (_config_get "connect_timeout_ms" JNull) (fun timeout =>
  bind (_config_get "auth_mechanism" JNull) (fun auth_mechanism =>
  if in_strs auth_mechanism [AUTH_NONE; AUTH_SCRAM_SHA_1] then
    bind (mongo (MongoArgs h None timeout)) set_client
  else if in_strs auth_mechanism [AUTH_SSL; AUTH_SSL_x509] then
    raise_unsupported_auth_mechanism auth_mechanism
  else raise_unsupported_auth_mechanism auth_mechanism)).

(** [DBClientConnector.connect(self, host=None)]; the message of the
    log reads the url from the configuration whatever [host] is. *)
Definition connect (h : json) : op unit :=
  bind (match h with
        | JNull => _config_get_required "url"
        | _ => ret h
        end) (fun h =>
  bind (_config_get_required "url") (fun _ =>
  if PYMONGO_AVAILABLE then
    if PYMONGO_3 then _connect_pymongo3 h else _connect_pymongo2 h
  else raise RuntimeError)).

Definition subject (fn : string) : op string :=
  bind (record (CallOpenssl fn)) (fun _ =>
  lift (get_subject_from_certificate check_output fn)).

Definition authenticate_db (x : client) (db user : json) (pwd : option json)
    (mechanism : string) : op unit :=
  bind (record (CallAuthenticate db user pwd mechanism)) (fun _ =>
  lift (db_authenticate x db user pwd mechanism)).

Definition logout_db (x : client) (db : json) : op unit :=
  bind (record (CallLogout db)) (fun _ => lift (db_logout x db)).

Definition eq_str (j : json) (s : string) : bool :=
  match j with
  | JStr t => String.eqb t s
  | _ => false
  end.

(** [DBClientConnector.authenticate(self)] *)
Definition authenticate : op unit :=
  bind (_config_get "auth_mechanism" JNull) (fun auth_mechanism =>
  if eq_str auth_mechanism AUTH_SCRAM_SHA_1 then
    bind get_client (fun x =>
    bind (_config_get "db_auth" (JStr "admin")) (fun db =>
    bind (_config_get_required "username") (fun username =>
    bind (_config_get_required "password") (fun password =>
    authenticate_db x db username (Some password) AUTH_SCRAM_SHA_1))))
  else if in_strs auth_mechanism [AUTH_SSL; AUTH_SSL_x509] then
    bind (bind (_config_get_required "ssl_certfile") expand) (fun certfile =>
    bind (subject certfile) (fun certificate_subject =>
    bind get_client (fun x =>
    authenticate_db x (JStr "$external") (JStr certificate_subject) None
      "MONGODB-X509")))
  else ret tt).

(** [DBClientConnector.logout(self)] *)
Definition logout : op unit :=
  bind (_config_get_required "auth_mechanism") (fun auth_mechanism =>
  if eq_str auth_mechanism AUTH_SCRAM_SHA_1 then
    bind get_client (fun x => logout_db x (JStr "admin"))
  else if in_strs auth_mechanism [AUTH_SSL; AUTH_SSL_x509] then
    bind get_client (fun x => logout_db x (JStr "$external"))
  else if eq_str auth_mechanism AUTH_NONE then ret tt
  else raise_unsupported_auth_mechanism auth_mechanism).

End connector.

End Connection.

(** ** Hosts and credentials: [signac/common/host.py] *)

Module Host.
Import Json Py.

(** The element of a sequence at a Python index, which may count from
    the end. *)
Definition at_index {A} (l : list A) (i : Z) : option A :=
  let n := Z.of_nat (length l) in
  if (0 <=? i) && (i <? n) then l !! Z.to_nat i
  else if (- n <=? i) && (i <? 0) then l !! Z.to_nat (n + i)
  else None.

Definition index_of (k : json) : option Z :=
  match k with
  | JNum i => Some i
  | JBool true => Some 1
  | JBool false => Some 0
  | _ => None
  end.

(** [j[k]] for any [k]: a mapping is looked up by key (a list or a
    mapping cannot be a key), a sequence or a string by index. *)
Definition getitem_any (j k : json) : result json :=
  match j with
  | JDict m =>
      match k with
      | JStr s => match assoc s m with
                  | Some x => Ok x
                  | None => Raise KeyError
                  end
      | JList _ | JDict _ => Raise TypeError
      | _ => Raise KeyError
      end
  | JList l =>
      match index_of k with
      | Some i => match at_index l i with
                  | Some x => Ok x
                  | None => Raise IndexError
                  end
      | None => Raise TypeError
      end
  | JStr s =>
      match index_of k with
      | Some i => match at_index (chars s) i with
                  | Some x => Ok x
                  | None => Raise IndexError
                  end
      | None => Raise TypeError
      end
  | _ => Raise TypeError
  end.

Section config.

(** [load_config()] of [common.config]: the configuration, or the
    exception it raises. *)
Variable load_config : result json.

(** [m.keys()[0]] of a section of the configuration, which depends on
    its class. *)
Variable first_key : list (string * json) -> result json.

Definition or_load (config : json) : result json :=
  match config with
  | JNull => load_config
  | _ => Ok config
  end.

(** [get_default_host(config=None)] *)
Definition get_default_host (config : json) : result json :=
  config ← or_load config;
  match (general ← getitem config "General";
         getitem general "default_host") with
  | Ok host => Ok host
  | Raise KeyError =>
      match (hosts ← getitem config "hosts";
             match hosts with
             | JDict m => first_key m
             | _ => Raise AttributeError
             end) with
      | Ok host => Ok host
      | Raise KeyError | Raise IndexError => Raise ConfigError
      | Raise e => Raise e
      end
  | Raise e => Raise e
  end.

(** [get_host_config(hostname=None, config=None)] *)
Definition get_host_config (hostname config : json) : result json :=
  config ← or_load config;
  hostname ← match hostname with
             | JNull => get_default_host config
             | _ => Ok hostname
             end;
  match (hosts ← getitem config "hosts"; getitem_any hosts hostname) with
  | Ok cfg => Ok cfg
  | Raise KeyError => Raise ConfigError
  | Raise e => Raise e
  end.

End config.

(** [hostcfg[k] = v] *)
Fixpoint setitem (k : string) (v : json) (m : list (string * json))
    : list (string * json) :=
  match m with
  | [] => [(k, v)]
  | (k', x) :: r =>
      if String.eqb k k' then (k, v) :: r else (k', x) :: setitem k v r
  end.

(** [k in hostcfg] *)
Definition contains (k : string) (m : list (string * json)) : bool :=
  match assoc k m with
  | Some _ => true
  | None => false
  end.

(** The lines still to be typed and the prompts shown so far. *)
Record terminal := Terminal {
  typed : list string;
  prompts : list string
}.

(** [input(prompt)] *)
Definition input (prompt : string) (t : terminal)
    : result string * terminal :=
  match typed t with
  | [] => (Raise EOFError, Terminal [] (prompts t ++ [prompt]))
  | x :: r => (Ok x, Terminal r (prompts t ++ [prompt]))
  end.

Section credentials.

(** [getpass.getuser()] *)
Variable getuser : string.

(** [get_credentials(hostcfg)], which asks the keyring, the
    configuration and the user. *)
Variable get_credentials :
  list (string * json) -> terminal -> result json * terminal.

(** [check_credentials(hostcfg)], with the host configuration as it
    leaves it. *)
Definition check_credentials (hostcfg : list (string * json))
    (t : terminal) : result unit * list (string * json) * terminal :=
  let auth_m := match assoc "auth_mechanism" hostcfg with
                | Some x => x
                | None => JStr "none"
                end in
  let scram := match auth_m with
               | JStr m => String.eqb m "SCRAM-SHA-1"
               | _ => false
               end in
  if scram then
      let after_user :=
        if contains "username" hostcfg then (Ok tt, hostcfg, t)
        else
          match input ("Username (" +:+ getuser +:+ "): ") t with
          | (Raise e, t') => (Raise e, hostcfg, t')
          | (Ok username, t') =>
              let username :=
                match username with
                | EmptyString => getuser
                | _ => username
                end in
              (Ok tt, setitem "username" (JStr username) hostcfg, t')
          end in
      match after_user with
      | (Raise e, hostcfg, t) => (Raise e, hostcfg, t)
      | (Ok _, hostcfg, t) =>
          if contains "password" hostcfg then (Ok tt, hostcfg, t)
          else
            match get_credentials hostcfg t with
            | (Raise e, t') => (Raise e, hostcfg, t')
            | (Ok pw, t') => (Ok tt, setitem "password" pw hostcfg, t')
            end
      end
  else (Ok tt, hostcfg, t).

End credentials.

End Host.

(** ** Concrete arguments and replies *)

Module AdminExamples.
Import Json Py Admin.

(** A reply of [usersInfo]: one user with a role on ["proj"], one
    without roles. *)
Definition users_info : json :=
  JDict [("users",
          JList [JDict [("user", JStr "ann"); ("db", JStr "admin");
                        ("roles",
                         JList [JDict [("role", JStr "read");
                                       ("db", JStr "proj")]])];
                 JDict [("user", JStr "bob"); ("roles", JList [])]]);
         ("ok", JNum 1)].

Definition users_decoded : list user_entry :=
  [UserEntry "ann" [RoleEntry "read" "proj"]; UserEntry "bob" []].

(** [add ann --readonly] and [update ann --password], [update ann --ssl]. *)
Definition add_args : args := Args (Some "ann") false false (Some true) None.
Definition update_args : args := Args (Some "ann") false true None None.
Definition ssl_args : args := Args (Some "ann") true false None None.

Definition no_file (p : string) : bool := false.
Definition no_subject (p : string) : result string := Raise RuntimeError.
Definition one_project (a : args) : result unit := Ok tt.
Definition one_client (p : unit) : result unit := Ok tt.
Definition ok_reply (db name : string) (arg pwd : option string)
    : result json := Ok users_info.

(** The password typed twice at an empty trace. *)
Definition typing : env := Env ["s3cret"; "s3cret"] [].

End AdminExamples.


(** ** Concrete connectors *)

Module ConnectionExamples.
Import Json Py Connection.

Definition scram_config : list (string * json) :=
  [("url", JStr "localhost"); ("auth_mechanism", JStr "SCRAM-SHA-1");
   ("username", JStr "ann"); ("password", JStr "s3cret")].

(** A configuration without mechanism and one with a mechanism that the
    connector does not know. *)
Definition bare_config : list (string * json) := [("url", JStr "localhost")].
Definition gssapi_config : list (string * json) :=
  [("url", JStr "localhost"); ("auth_mechanism", JStr "GSSAPI")].

(** A server that accepts everything. *)
Definition mongo_ok (a : mongo_args) : result unit := Ok tt.
Definition auth_ok (x : unit) (db user : json) (pwd : option json)
    (mechanism : string) : result unit := Ok tt.
Definition logout_ok (x : unit) (db : json) : result unit := Ok tt.
Definition home (p : string) : string := p.

(** What [openssl] prints for a certificate. *)
Definition openssl (fn : string) : process :=
  Output ("subject= CN=ann,O=lab " +:+ String "010"%char "-----BEGIN").

End ConnectionExamples.


(** ** Concrete configurations *)

Module HostExamples.
Import Json Py Host.

(** One host, and a default host that is not configured. *)
Definition config : json :=
  JDict [("General", JDict [("default_host", JStr "gone")]);
         ("hosts", JDict [("local", JDict [("url", JStr "localhost")])])].

Definition no_load : result json := Raise ConfigError.

(** The first key of a section whose [keys()] is a list. *)
Definition first (m : list (string * json)) : result json :=
  match m with
  | [] => Raise IndexError
  | (k, _) :: _ => Ok (JStr k)
  end.

Definition scram_hostcfg : list (string * json) :=
  [("url", JStr "localhost"); ("auth_mechanism", JStr "SCRAM-SHA-1")].

Definition stored_password (hostcfg : list (string * json)) (t : terminal)
    : result json * terminal := (Ok (JStr "s3cret"), t).

Definition console : terminal := Terminal ["ann"] [].

End HostExamples.


(** * Properties *)

Import Json Posixpath Filesystem JSONCollection.

(** ** Files: what a write leaves behind *)

Lemma append_snoc (a : string) (c : ascii) (r : string) :
  (a +:+ String c EmptyString) +:+ r = a +:+ String c r.
Proof.
  induction a as [|x a IH]; [done|].
  change (String x ((a +:+ String c EmptyString) +:+ r)
          = String x (a +:+ String c r)).
  by f_equal.
Qed.

Lemma append_empty_r (a : string) : a +:+ EmptyString = a.
Proof.
  induction a as [|x a IH]; [done|].
  change (String x (a +:+ EmptyString) = String x a). by f_equal.
Qed.

Lemma run_app (now : Z) (d : fs) (a b : list fs_op) :
  run now d (a ++ b) = run (now + Z.of_nat (length a)) (run now d a) b.
Proof.
  revert now d. induction a as [|o a IH]; intros now d; simpl.
  - by rewrite Z.add_0_r.
  - rewrite IH. f_equal. lia.
Qed.

(** Appending to an open file extends its bytes and touches nothing else. *)
Lemma run_appends_bytes (p blob : string) (now : Z) (d : fs) (f : file) :
  d !! p = Some f ->
  exists f', run now d (appends p blob) !! p = Some f'
    /\ f_bytes f' = f_bytes f +:+ blob
    /\ f_readable f' = f_readable f.
Proof.
  revert now d f. induction blob as [|c blob IH]; intros now d f Hf; simpl.
  - exists f. by rewrite append_empty_r.
  - edestruct (IH (now + 1)
      (alter (fun f => File (f_bytes f +:+ String c EmptyString) now
                         (f_readable f)) p d)) as (f' & H1 & H2 & H3).
    { rewrite lookup_alter_eq, Hf. reflexivity. }
    exists f'. split; [exact H1|]. cbn [f_bytes f_readable] in H2, H3.
    split; [|exact H3]. rewrite H2. apply append_snoc.
Qed.

Lemma run_appends_other (p q blob : string) (now : Z) (d : fs) :
  p <> q -> run now d (appends p blob) !! q = d !! q.
Proof.
  intros Hpq. revert now d. induction blob as [|c blob IH]; intros now d;
    simpl; [done|].
  rewrite IH. by rewrite lookup_alter_ne.
Qed.

Lemma run_write_ops_bytes (p blob : string) (now : Z) (d : fs) :
  exists f', run now d (write_ops p blob) !! p = Some f'
    /\ f_bytes f' = blob.
Proof.
  unfold write_ops. simpl.
  edestruct (run_appends_bytes p blob (now + 1)) as (f' & H1 & H2 & _).
  { apply lookup_insert_eq. }
  exists f'. split; [exact H1|]. by rewrite H2.
Qed.

Lemma run_write_ops_other (p q blob : string) (now : Z) (d : fs) :
  p <> q -> run now d (write_ops p blob) !! q = d !! q.
Proof.
  intros Hpq. unfold write_ops. simpl.
  rewrite run_appends_other by done. by rewrite lookup_insert_ne.
Qed.

(** Either branch of [_sync] leaves the blob, whole, under the file name. *)
Lemma run_sync_ops_content (wc : bool) (filename uid blob : string)
    (now : Z) (d : fs) :
  content (run now d (_sync_ops wc filename uid blob)) filename = Some blob.
Proof.
  unfold content, _sync_ops. destruct wc.
  - rewrite run_app.
    destruct (run_write_ops_bytes (fn_tmp filename uid) blob now d)
      as (f' & H1 & H2).
    cbn [run fs_step]. rewrite H1, lookup_insert_eq. simpl. by rewrite H2.
  - destruct (run_write_ops_bytes filename blob now d) as (f' & H1 & H2).
    rewrite H1. simpl. by rewrite H2.
Qed.

(** ** Paths: the temporary file lies beside its target *)

Lemma append_cons (c : ascii) (a b : string) :
  String c a +:+ b = String c (a +:+ b).
Proof. reflexivity. Qed.

Lemma append_nil_l (b : string) : EmptyString +:+ b = b.
Proof. reflexivity. Qed.

Lemma length_append (a b : string) :
  String.length (a +:+ b) = (String.length a + String.length b)%nat.
Proof.
  induction a as [|x a IH]; [done|].
  rewrite append_cons. cbn [String.length]. by rewrite IH.
Qed.

Lemma has_sep_append (a b : string) :
  has_sep (a +:+ b) = has_sep a || has_sep b.
Proof.
  induction a as [|x a IH]; [done|].
  rewrite append_cons. cbn [has_sep]. rewrite IH. by rewrite orb_assoc.
Qed.

Lemma rsplit_sep_no_sep (b : string) :
  has_sep b = false -> rsplit_sep b = (EmptyString, b).
Proof.
  induction b as [|x b IH]; [done|]. cbn [has_sep rsplit_sep].
  intros [Hx Hb]%orb_false_elim. rewrite (IH Hb). by rewrite Hx.
Qed.

(** The last separator decides: what follows it is the tail. *)
Lemma rsplit_sep_last (a b : string) :
  has_sep b = false ->
  rsplit_sep (a +:+ String sep b) = (a +:+ String sep EmptyString, b).
Proof.
  intros Hb. induction a as [|x a IH].
  - rewrite !append_nil_l. cbn [rsplit_sep].
    rewrite (rsplit_sep_no_sep b Hb). by rewrite Ascii.eqb_refl.
  - rewrite !append_cons. cbn [rsplit_sep]. rewrite IH.
    by destruct a.
Qed.

Lemma rsplit_sep_tail (p : string) : has_sep (snd (rsplit_sep p)) = false.
Proof.
  induction p as [|x p IH]; [done|]. cbn [rsplit_sep].
  destruct (rsplit_sep p) as [[|y h] t]; cbn [snd] in *.
  - destruct (Ascii.eqb x sep) eqn:Hx; cbn [snd has_sep]; [done|].
    by rewrite Hx.
  - done.
Qed.

Lemma split_tail (p : string) : snd (split p) = snd (rsplit_sep p).
Proof.
  unfold split. destruct (rsplit_sep p) as [[|y h] t]; [done|].
  by destruct (all_sep (String y h)).
Qed.

Lemma ends_with_sep_snoc (d : string) :
  ends_with_sep d = true -> exists a, d = a +:+ String sep EmptyString.
Proof.
  induction d as [|x d IH]; [done|]. destruct d as [|y d].
  - cbn [ends_with_sep]. intros Hx%Ascii.eqb_eq. subst. by exists EmptyString.
  - intros H. destruct (IH H) as [a Ha]. exists (String x a).
    by rewrite append_cons, <- Ha.
Qed.

Lemma rstrip_sep_fixed (d : string) :
  d <> EmptyString -> ends_with_sep d = false ->
  rstrip_sep d = d /\ all_sep d = false.
Proof.
  induction d as [|x d IH]; [done|]. intros _. destruct d as [|y d].
  - cbn [ends_with_sep rstrip_sep all_sep]. intros ->. done.
  - intros H. destruct IH as [IH1 IH2]; [done|exact H|].
    split.
    + change (rstrip_sep (String x (String y d)))
        with (match rstrip_sep (String y d) with
              | EmptyString =>
                  if Ascii.eqb x sep then EmptyString
                  else String x EmptyString
              | r' => String x r'
              end).
      by rewrite IH1.
    + change (all_sep (String x (String y d)))
        with (Ascii.eqb x sep && all_sep (String y d)).
      rewrite IH2. apply andb_false_r.
Qed.

Lemma rstrip_sep_snoc (d : string) :
  rstrip_sep (d +:+ String sep EmptyString) = rstrip_sep d.
Proof.
  induction d as [|x d IH].
  - rewrite append_nil_l. cbn [rstrip_sep]. by rewrite Ascii.eqb_refl.
  - rewrite append_cons. cbn [rstrip_sep]. by rewrite IH.
Qed.

Lemma all_sep_snoc (d : string) :
  all_sep (d +:+ String sep EmptyString) = all_sep d.
Proof.
  induction d as [|x d IH].
  - rewrite append_nil_l. cbn [all_sep]. by rewrite Ascii.eqb_refl.
  - rewrite append_cons. cbn [all_sep]. by rewrite IH.
Qed.

Lemma rstrip_sep_no_trailing (h : string) :
  ends_with_sep (rstrip_sep h) = false.
Proof.
  induction h as [|x h IH]; [done|]. cbn [rstrip_sep].
  destruct (rstrip_sep h) as [|y r].
  - destruct (Ascii.eqb x sep) eqn:Hx; [done|]. cbn [ends_with_sep]. exact Hx.
  - exact IH.
Qed.

Lemma rstrip_sep_empty (h : string) :
  rstrip_sep h = EmptyString -> all_sep h = true.
Proof.
  induction h as [|x h IH]; [done|]. cbn [rstrip_sep all_sep].
  destruct (rstrip_sep h) as [|y r]; [|discriminate].
  destruct (Ascii.eqb x sep); [|discriminate]. intros _. by apply IH.
Qed.

(** The head that [split] returns is empty, or made of separators only,
    or has no trailing separator. *)
Lemma split_head_shape (p : string) :
  fst (split p) = EmptyString
  \/ all_sep (fst (split p)) = true
  \/ (fst (split p) <> EmptyString /\ ends_with_sep (fst (split p)) = false).
Proof.
  unfold split. destruct (rsplit_sep p) as [[|y h] t]; [by left|].
  destruct (all_sep (String y h)) eqn:Ha; cbn [fst].
  - right. by left.
  - right. right. split; [|apply rstrip_sep_no_trailing].
    intros He. apply rstrip_sep_empty in He. congruence.
Qed.

(** [split] undoes [join] on a head of that shape and a tail without
    separator. *)
Lemma split_join (d b : string) :
  (d = EmptyString \/ all_sep d = true
   \/ (d <> EmptyString /\ ends_with_sep d = false)) ->
  has_sep b = false ->
  split (join d b) = (d, b).
Proof.
  intros Hd Hb.
  assert (starts_with_sep b = false) as Hs.
  { destruct b as [|x b]; [done|]. cbn [has_sep] in Hb.
    apply orb_false_elim in Hb as [Hx _]. exact Hx. }
  unfold join. rewrite Hs.
  destruct d as [|y d].
  { rewrite append_nil_l. unfold split. by rewrite (rsplit_sep_no_sep b Hb). }
  destruct (ends_with_sep (String y d)) eqn:He.
  - destruct (ends_with_sep_snoc _ He) as [a Ha].
    assert (all_sep (String y d) = true) as Hall.
    { destruct Hd as [Hd|[Hd|[_ Hd]]]; [done|done|congruence]. }
    rewrite Ha, append_snoc. unfold split.
    rewrite (rsplit_sep_last a b Hb), <- Ha, Hall. done.
  - destruct (rstrip_sep_fixed (String y d)) as [Hr Hall]; [done|exact He|].
    change (String sep EmptyString +:+ b) with (String sep b).
    unfold split. rewrite (rsplit_sep_last (String y d) b Hb).
    rewrite append_cons, <- (append_cons y d (String sep EmptyString)).
    by rewrite all_sep_snoc, Hall, rstrip_sep_snoc, Hr.
Qed.

Lemma fn_tmp_split (filename uid : string) :
  has_sep uid = false ->
  split (fn_tmp filename uid)
  = (fst (split filename), "._" +:+ uid +:+ "_" +:+ snd (split filename)).
Proof.
  intros Hu. unfold fn_tmp.
  pose proof (split_head_shape filename) as Hh.
  pose proof (rsplit_sep_tail filename) as Ht. rewrite <- split_tail in Ht.
  destruct (split filename) as [dirname fn]. cbn [fst snd] in *.
  apply split_join; [exact Hh|].
  rewrite !has_sep_append, Hu, Ht. reflexivity.
Qed.

Lemma fn_tmp_neq (filename uid : string) :
  has_sep uid = false -> fn_tmp filename uid <> filename.
Proof.
  intros Hu He. pose proof (fn_tmp_split filename uid Hu) as Hs.
  rewrite He in Hs. apply (f_equal snd) in Hs. cbn [snd] in Hs.
  apply (f_equal String.length) in Hs. rewrite !length_append in Hs.
  cbn [String.length] in Hs. lia.
Qed.

(** ** Traces *)

Lemma states_app_last (now : Z) (d : fs) (a : list fs_op) (o : fs_op) :
  states now d (a ++ [o])
  = (states now d a ++ [run now d (a ++ [o])])%list.
Proof.
  revert now d. induction a as [|x a IH]; intros now d; [done|].
  cbn [app states run]. by rewrite IH.
Qed.

Lemma last_states (now : Z) (d : fs) (ops : list fs_op) :
  last (states now d ops) = Some (run now d ops).
Proof.
  revert now d. induction ops as [|o ops IH]; intros now d; [done|].
  cbn [states run]. rewrite <- IH. by destruct ops.
Qed.

Lemma states_appends_other (p q blob : string) (now : Z) (d : fs) :
  p <> q -> Forall (fun s => s !! q = d !! q) (states now d (appends p blob)).
Proof.
  intros Hpq. revert now d. induction blob as [|c blob IH]; intros now d.
  - by constructor.
  - cbn [appends states]. constructor; [done|].
    eapply Forall_impl; [apply IH|]. intros s Hs. cbn beta in Hs.
    rewrite Hs. cbn [fs_step]. by rewrite lookup_alter_ne.
Qed.

(** Writing [p] leaves every other file as it was, at every moment. *)
Lemma states_write_ops_other (p q blob : string) (now : Z) (d : fs) :
  p <> q ->
  Forall (fun s => s !! q = d !! q) (states now d (write_ops p blob)).
Proof.
  intros Hpq. unfold write_ops. cbn [states]. constructor; [done|].
  eapply Forall_impl; [by apply states_appends_other|].
  intros s Hs. cbn beta in Hs. rewrite Hs. cbn [fs_step].
  by rewrite lookup_insert_ne.
Qed.

(** ** The backend *)

Lemma _sync_ok (self : node) (data : json) (w : world) (f : string) :
  _filename self = Some f ->
  exists w', _sync self data w = Ok w'
    /\ content (w_fs w') f
        = Some (json_dumps (if is_null data then to_base self else data))
    /\ w_cache w' = w_cache w
    /\ w_buffer w' = w_buffer w
    /\ w_buffered w' = w_buffered w.
Proof.
  intros Hf. unfold _sync. rewrite Hf.
  destruct (kw_write_concern (_backend_kwargs self)); cbn [uuid4];
    eexists; (split; [reflexivity|]); cbn [set_fs w_fs w_cache w_buffer
      w_buffered w_clock]; (split; [apply run_sync_ops_content | done]).
Qed.

Lemma sync_observable_last (self : node) (data : json) (w w' : world) :
  _sync self data w = Ok w' ->
  last (_sync_observable self data w) = Some (w_fs w').
Proof.
  unfold _sync, _sync_observable. destruct (_filename self); [|done].
  destruct (kw_write_concern (_backend_kwargs self)); cbn [uuid4];
    intros H; apply (f_equal (fun r => match r with
                                       | Ok w => Some (w_fs w)
                                       | Raise _ => None
                                       end)) in H;
    cbn [w_fs w_clock set_fs] in H; rewrite <- H; apply last_states.
Qed.

(** C2: with write concern enabled, [_sync] writes the whole blob to a
    temporary file named after a new [uuid4] in the directory of the
    target and then replaces the target in one rename: in every state
    observable before the rename the target is what it was before the
    call, and in the state after it the target holds the whole blob.
    With write concern disabled the target itself is opened and written:
    its truncated state is observable. *)
Theorem sync_write_concern_atomic (self : node) (data : json) (w : world)
    (filename : string) :
  _filename self = Some filename ->
  has_sep (w_uuid w (w_uuid_next w)) = false ->
  let blob := json_dumps (if is_null data then to_base self else data) in
  let tmp := fn_tmp filename (w_uuid w (w_uuid_next w)) in
  (kw_write_concern (_backend_kwargs self) = true ->
   fst (split tmp) = fst (split filename)
   /\ tmp <> filename
   /\ exists (during : list fs) (before_rename final : fs),
       _sync_observable self data w = (during ++ [final])%list
       /\ Forall (fun s => s !! filename = w_fs w !! filename) during
       /\ last during = Some before_rename
       /\ content before_rename tmp = Some blob
       /\ final = fs_step (w_clock w + Z.of_nat (length (write_ops tmp blob)))
                    before_rename (OpReplace tmp filename)
       /\ content final filename = Some blob
       /\ exists w', _sync self data w = Ok w' /\ w_fs w' = final)
  /\ (kw_write_concern (_backend_kwargs self) = false ->
      exists (truncated : fs),
        _sync_observable self data w !! 1%nat = Some truncated
        /\ content truncated filename = Some EmptyString
        /\ exists w', _sync self data w = Ok w'
             /\ content (w_fs w') filename = Some blob).
Proof.
  intros Hf Hu blob tmp. split.
  - intros Hwc.
    split; [subst tmp; by rewrite fn_tmp_split|].
    assert (tmp <> filename) as Hne by (by apply fn_tmp_neq).
    split; [exact Hne|].
    exists (states (w_clock w) (w_fs w) (write_ops tmp blob)),
      (run (w_clock w) (w_fs w) (write_ops tmp blob)),
      (run (w_clock w) (w_fs w) (_sync_ops true filename
                                   (w_uuid w (w_uuid_next w)) blob)).
    split; [|split; [|split; [|split; [|split; [|split]]]]].
    + unfold _sync_observable. rewrite Hf, Hwc. cbn [uuid4 w_clock w_fs].
      unfold _sync_ops. fold tmp. fold blob. apply states_app_last.
    + by apply states_write_ops_other.
    + apply last_states.
    + destruct (run_write_ops_bytes tmp blob (w_clock w) (w_fs w))
        as (f' & H1 & H2).
      unfold content. rewrite H1. cbn. by rewrite H2.
    + unfold _sync_ops. fold tmp. by rewrite run_app.
    + apply run_sync_ops_content.
    + unfold _sync. rewrite Hf, Hwc. cbn [uuid4]. eexists.
      split; [reflexivity|]. reflexivity.
  - intros Hwc.
    exists (fs_step (w_clock w) (w_fs w) (OpCreat filename)).
    split; [|split].
    + unfold _sync_observable. rewrite Hf, Hwc. unfold _sync_ops, write_ops.
      cbn [states]. by destruct (appends filename _).
    + unfold content. cbn [fs_step]. by rewrite lookup_insert_eq.
    + destruct (_sync_ok self data w filename Hf) as (w' & H1 & H2 & _).
      by exists w'.
Qed.

Section backend_facts.

Variable realpath : string -> string.
Variable probe : fs -> string -> option metadata.

Lemma init_unfold cls filename data wc parent w :
  is_None filename <> is_None parent ->
  __init__ realpath probe cls filename data wc parent w
  = if is_null data then Ok (built realpath cls filename data wc parent, w)
    else w' ← sync probe (built realpath cls filename data wc parent) w;
         Ok (built realpath cls filename data wc parent, w').
Proof.
  intros Hne. unfold __init__, built.
  destruct (is_None filename), (is_None parent); try congruence;
    cbn [Bool.eqb]; by destruct (is_null data).
Qed.

(** A root pushes its snapshot: to the file, or to the buffer. *)
Lemma sync_root_unbuffered (self : node) (w : world) (f : string) :
  _parent self = None -> _filename self = Some f -> w_buffered w = false ->
  exists w', sync probe self w = Ok w'
    /\ content (w_fs w') f = Some (json_dumps (_data self))
    /\ w_cache w' = w_cache w /\ w_buffer w' = w_buffer w
    /\ w_buffered w' = w_buffered w.
Proof.
  intros Hp Hf Hb. destruct self as [fn par d kw]. simpl in Hp, Hf. subst.
  destruct (_sync_ok (Node (Some f) None d kw) JNull w f eq_refl)
    as (w' & H1 & H2 & H3 & H4 & H5).
  exists w'. cbn [sync _parent]. rewrite Hb. split; [exact H1|].
  rewrite Hb in H5. by repeat split.
Qed.

Lemma sync_root_buffered (self : node) (w : world) (f : string) :
  _parent self = None -> _filename self = Some f -> w_buffered w = true ->
  exists w', sync probe self w = Ok w'
    /\ w_fs w' = w_fs w
    /\ w_cache w' = <[f := json_dumps (_data self)]> (w_cache w)
    /\ w_buffer w'
        = <[f := (_backend_kwargs self, probe (w_fs w) f)]> (w_buffer w)
    /\ w_buffered w' = w_buffered w.
Proof.
  intros Hp Hf Hb. destruct self as [fn par d kw]. simpl in Hp, Hf. subst.
  cbn [sync _parent]. rewrite Hb. eexists. split; [reflexivity|].
  cbn. rewrite Hb. done.
Qed.

(** Whatever the mode, a root's [sync] succeeds and keeps the file system
    or writes the snapshot to the root's file. *)
Lemma sync_root_ok (self : node) (w : world) (f : string) :
  _parent self = None -> _filename self = Some f ->
  exists w', sync probe self w = Ok w'
    /\ w_buffered w' = w_buffered w
    /\ (w_buffered w = true -> w_fs w' = w_fs w).
Proof.
  intros Hp Hf. destruct (w_buffered w) eqn:Hb.
  - destruct (sync_root_buffered self w f Hp Hf Hb) as (w' & ? & ? & ? & ? & ?).
    exists w'. by rewrite Hb in *.
  - destruct (sync_root_unbuffered self w f Hp Hf Hb)
      as (w' & ? & ? & ? & ? & ?).
    exists w'. by rewrite Hb in *.
Qed.

Lemma from_base_ok (data : json) (kwargs : backend_kwargs) (w : world)
    (f : string) :
  is_collection data = true -> kw_filename kwargs = Some f ->
  exists n w', from_base realpath probe data kwargs w = Ok (n, w')
    /\ _filename n = Some (realpath f) /\ _data n = data
    /\ w_buffered w' = w_buffered w.
Proof.
  intros Hc Hf. unfold from_base. rewrite Hf.
  destruct data as [| | | |l|m]; try discriminate Hc.
  - rewrite init_unfold by done. cbn [is_null].
    destruct (sync_root_ok (built realpath KList (Some f) (JList l)
                (kw_write_concern kwargs) None) w (realpath f) eq_refl eq_refl)
      as (w' & Hs & Hb & _).
    rewrite Hs. by exists (built realpath KList (Some f) (JList l)
                         (kw_write_concern kwargs) None), w'.
  - rewrite init_unfold by done. cbn [is_null].
    destruct (sync_root_ok (built realpath KDict (Some f) (JDict m)
                (kw_write_concern kwargs) None) w (realpath f) eq_refl eq_refl)
      as (w' & Hs & Hb & _).
    rewrite Hs. by exists (built realpath KDict (Some f) (JDict m)
                         (kw_write_concern kwargs) None), w'.
Qed.

(** The branch of [_sync_from_buffer] past the comparison. *)
Lemma sync_from_buffer_writes (id : string) (kwargs : backend_kwargs)
    (md : option metadata) (w : world) (blob : string) (data : json)
    (f : string) :
  (forall m, md = Some m -> probe (w_fs w) id = Some m) ->
  w_cache w !! id = Some blob -> json_loads blob = Some data ->
  is_collection data = true -> kw_filename kwargs = Some f ->
  exists w', _sync_from_buffer realpath probe id kwargs md w = Ok (true, w')
    /\ content (w_fs w') (realpath f) = Some (json_dumps data).
Proof.
  intros Hmd Hc Hl Hd Hf. unfold _sync_from_buffer.
  assert (match md with
          | Some m => negb (bool_decide (Some m = _get_metadata probe w id))
          | None => false
          end = false) as ->.
  { destruct md as [m|]; [|done]. unfold _get_metadata.
    rewrite (Hmd m eq_refl). by rewrite bool_decide_eq_true_2. }
  rewrite Hc, Hl.
  destruct (from_base_ok data kwargs w f Hd Hf) as (n & w1 & -> & Hn & Hdn & _).
  cbn [mbind result_bind].
  destruct (_sync_ok n JNull w1 (realpath f) Hn) as (w2 & -> & Hw2 & _).
  exists w2. split; [done|]. rewrite Hw2. cbn [is_null]. unfold to_base.
  by rewrite Hdn.
Qed.

(** C8: constructing a node succeeds only when exactly one of [filename]
    and [parent] is given: with both absent or both present the
    constructor raises [ValueError], and a node that it returns has
    exactly one of [_filename] and [_parent]. *)
Theorem init_exactly_one_of (cls : kind) (filename : option string)
    (data : json) (wc : bool) (parent : option node) (w : world) :
  (is_None filename = is_None parent ->
   __init__ realpath probe cls filename data wc parent w = Raise ValueError)
  /\ (forall n w',
       __init__ realpath probe cls filename data wc parent w = Ok (n, w') ->
       is_None filename <> is_None parent
       /\ is_None (_filename n) <> is_None (_parent n)).
Proof.
  split.
  - intros He. unfold __init__. rewrite He.
    by destruct (is_None parent).
  - intros n w' H.
    assert (is_None filename <> is_None parent) as Hne.
    { intros He. unfold __init__ in H. rewrite He in H.
      by destruct (is_None parent). }
    split; [exact Hne|].
    rewrite init_unfold in H by exact Hne.
    assert (n = built realpath cls filename data wc parent) as ->.
    { destruct (is_null data); [congruence|].
      destruct (sync probe _ w); cbn in H; congruence. }
    unfold built. cbn [_filename _parent].
    by destruct filename, parent.
Qed.

(** C9: a node constructed with initial data synchronizes at construction
    time: the constructor's result is that of [sync] on the new node, so
    that a root holds the data in its file (unbuffered) or in a pending
    buffer entry (buffered) as soon as the constructor returns; a node
    constructed without data leaves file system and buffer as they were. *)
Theorem init_syncs_iff_data (cls : kind) (filename : option string)
    (data : json) (wc : bool) (parent : option node) (w : world) :
  is_None filename <> is_None parent ->
  let self := built realpath cls filename data wc parent in
  (data = JNull ->
   __init__ realpath probe cls filename data wc parent w = Ok (self, w))
  /\ (data <> JNull ->
      _data self = data
      /\ __init__ realpath probe cls filename data wc parent w
         = (w' ← sync probe self w; Ok (self, w')))
  /\ (data <> JNull -> parent = None -> w_buffered w = false ->
      forall f, filename = Some f ->
      exists w',
        __init__ realpath probe cls filename data wc parent w = Ok (self, w')
        /\ content (w_fs w') (realpath f) = Some (json_dumps data))
  /\ (data <> JNull -> parent = None -> w_buffered w = true ->
      forall f, filename = Some f ->
      exists w',
        __init__ realpath probe cls filename data wc parent w = Ok (self, w')
        /\ w_fs w' = w_fs w
        /\ w_cache w' !! realpath f = Some (json_dumps data)
        /\ w_buffer w' !! realpath f
           = Some (Kwargs (Some (realpath f)) wc,
                   probe (w_fs w) (realpath f))).
Proof.
  intros Hne self.
  assert (data <> JNull -> is_null data = false) as Hnn.
  { by destruct data. }
  split; [|split; [|split]].
  - intros ->. by rewrite init_unfold.
  - intros Hd. rewrite init_unfold by done. subst self. unfold built.
    by rewrite (Hnn Hd).
  - intros Hd -> Hb f ->. rewrite init_unfold by done. rewrite (Hnn Hd).
    destruct (sync_root_unbuffered self w (realpath f) eq_refl eq_refl Hb)
      as (w' & Hs & Hc & _).
    exists w'. fold self. rewrite Hs. split; [done|]. rewrite Hc.
    subst self. unfold built. cbn [_data]. by rewrite (Hnn Hd).
  - intros Hd -> Hb f ->. rewrite init_unfold by done. rewrite (Hnn Hd).
    destruct (sync_root_buffered self w (realpath f) eq_refl eq_refl Hb)
      as (w' & Hs & Hfs & Hc & Hbuf & _).
    exists w'. fold self. rewrite Hs. split; [done|]. split; [done|].
    rewrite Hc, Hbuf, !lookup_insert_eq.
    subst self. unfold built. cbn [_data _backend_kwargs]. rewrite (Hnn Hd).
    done.
Qed.

(** C10: flushed without recorded metadata ([metadata] is [None]), a
    buffered entry is written whatever the state of the resource: no
    comparison takes place, the snapshot is deserialized and stored, and
    the result is [True]. *)
Theorem sync_from_buffer_without_metadata (id : string)
    (kwargs : backend_kwargs) (w : world) (blob : string) (data : json)
    (f : string) :
  w_cache w !! id = Some blob -> json_loads blob = Some data ->
  is_collection data = true -> kw_filename kwargs = Some f ->
  exists w', _sync_from_buffer realpath probe id kwargs None w = Ok (true, w')
    /\ content (w_fs w') (realpath f) = Some (json_dumps data).
Proof.
  intros Hc Hl Hd Hf.
  by apply (sync_from_buffer_writes id kwargs None w blob data f).
Qed.

(** C1, amended: for a pending entry with recorded metadata, the flush
    probes the resource again.  When the probe equals the recorded
    metadata the snapshot is deserialized and stored, and the flush
    returns [True]; when it differs the entry has left the buffer, the
    file system is as it was, and the flush returns [False] without
    raising. *)
Theorem flush_one_with_metadata (id : string) (kwargs : backend_kwargs)
    (m : metadata) (w : world) :
  w_buffer w !! id = Some (kwargs, Some m) ->
  (probe (w_fs w) id = Some m ->
   forall blob data f,
     w_cache w !! id = Some blob -> json_loads blob = Some data ->
     is_collection data = true -> kw_filename kwargs = Some f ->
     exists w', flush_one realpath probe id w = Ok (true, w')
       /\ content (w_fs w') (realpath f) = Some (json_dumps data))
  /\ (probe (w_fs w) id <> Some m ->
      exists w', flush_one realpath probe id w = Ok (false, w')
        /\ w_fs w' = w_fs w
        /\ w_buffer w' !! id = None).
Proof.
  intros Hb. split.
  - intros Hp blob data f Hc Hl Hd Hf. unfold flush_one. rewrite Hb.
    apply (sync_from_buffer_writes id kwargs (Some m) _ blob data f);
      try done.
    intros m' [= <-]. exact Hp.
  - intros Hp. unfold flush_one. rewrite Hb. unfold _sync_from_buffer.
    unfold _get_metadata. cbn [set_buffer w_fs].
    rewrite bool_decide_eq_false_2 by congruence. cbn [negb].
    eexists. split; [reflexivity|]. split; [done|].
    cbn [w_buffer]. apply lookup_delete_eq.
Qed.

End backend_facts.

(** ** The backend on concrete processes *)

Import Examples.

(** C3: [_load] on a file that exists but cannot be opened: the
    [IOError] is caught, its [errno] is not [ENOENT], and the function
    ends with the value [None], the one it returns for a file that does
    not exist. *)
Theorem load_swallows_permission_error :
  open_rb (w_fs unreadable_world) target = inl EACCES
  /\ _load (root false (JDict [])) unreadable_world = Ok JNull
  /\ _load (root false (JDict [])) fresh_world = Ok JNull.
Proof. by vm_compute. Qed.

(** What [_load] does get right: an absent file is [None]. *)
Lemma load_absent (self : node) (w : world) (f : string) :
  _filename self = Some f -> w_fs w !! f = None -> _load self w = Ok JNull.
Proof. intros Hf Hn. unfold _load, open_rb. by rewrite Hf, Hn. Qed.

(** And a readable file gives what its text denotes. *)
Lemma load_present (self : node) (w : world) (f : string) (x : file)
    (j : json) :
  _filename self = Some f -> w_fs w !! f = Some x -> f_readable x = true ->
  json_loads (f_bytes x) = Some j -> _load self w = Ok j.
Proof.
  intros Hf Hx Hr Hj. unfold _load, open_rb. by rewrite Hf, Hx, Hr, Hj.
Qed.

Lemma init_exactly_one_of_witness :
  __init__ canonical stat KDict None JNull false None fresh_world
  = Raise ValueError.
Proof.
  apply (proj1 (init_exactly_one_of canonical stat KDict None JNull false
                  None fresh_world)).
  reflexivity.
Defined.

Lemma init_syncs_iff_data_witness :
  exists w',
    __init__ canonical stat KList (Some target) (JList [JNum 1]) false None
      fresh_world
    = Ok (built canonical KList (Some target) (JList [JNum 1]) false None, w')
    /\ content (w_fs w') (canonical target)
       = Some (json_dumps (JList [JNum 1])).
Proof.
  assert (is_None (Some target) <> is_None (@None node)) as Hne by done.
  destruct (init_syncs_iff_data canonical stat KList (Some target)
              (JList [JNum 1]) false None fresh_world Hne) as (_ & _ & H & _).
  apply H; done.
Defined.

Lemma sync_from_buffer_without_metadata_witness :
  exists w',
    _sync_from_buffer canonical stat target (Kwargs (Some target) false) None
      unrecorded_world = Ok (true, w')
    /\ content (w_fs w') (canonical target)
       = Some (json_dumps (JList [JNum 1; JNum 2])).
Proof.
  apply (sync_from_buffer_without_metadata canonical stat target
           (Kwargs (Some target) false) unrecorded_world "[1, 2]"
           (JList [JNum 1; JNum 2]) target).
  - by vm_compute.
  - by vm_compute.
  - reflexivity.
  - reflexivity.
Defined.

Lemma flush_one_with_metadata_witness :
  (exists w',
     flush_one canonical stat target pending_world = Ok (true, w')
     /\ content (w_fs w') (canonical target)
        = Some (json_dumps (JList [JNum 1; JNum 2])))
  /\ (exists w',
       flush_one canonical stat target conflict_world = Ok (false, w')
       /\ w_fs w' = w_fs conflict_world
       /\ w_buffer w' !! target = None).
Proof.
  split.
  - assert (w_buffer pending_world !! target
            = Some (Kwargs (Some target) true, Some (2, 42))) as Hb
      by (by vm_compute).
    apply (proj1 (flush_one_with_metadata canonical stat target _ _ _ Hb)
             ltac:(by vm_compute) "[1, 2]" (JList [JNum 1; JNum 2]) target);
      by vm_compute.
  - assert (w_buffer conflict_world !! target
            = Some (Kwargs (Some target) true, Some (2, 42))) as Hb
      by (by vm_compute).
    apply (proj2 (flush_one_with_metadata canonical stat target _ _ _ Hb)).
    by vm_compute.
Defined.

(** How an entry comes to have no metadata: a root is constructed in
    buffered mode on a file that does not exist yet, and the probe of
    [Examples] has nothing to report for it. *)
Example stage_on_absent_file :
  exists w',
    __init__ canonical stat KList (Some target) (JList [JNum 1; JNum 2])
      false None buffered_world
    = Ok (root false (JList [JNum 1; JNum 2]), w')
    /\ w_fs w' = ∅
    /\ w_cache w' !! target = Some "[1, 2]"
    /\ w_buffer w' !! target = Some (Kwargs (Some target) false, None).
Proof. eexists. split; [by vm_compute|]. by vm_compute. Qed.

(** C1 as stated fails on an entry staged without metadata: the probe,
    [(3, 57)], differs from what was recorded, [None], and yet
    [_sync_from_buffer] stores the snapshot over the file and returns
    [True], and so does the flush of the entry. *)
Lemma flush_one_unrecorded_overwrites :
  w_buffer unrecorded_world !! target
  = Some (Kwargs (Some target) false, None)
  /\ stat (w_fs unrecorded_world) target = Some (3, 57)
  /\ content (w_fs unrecorded_world) target = Some "[7]"
  /\ (exists w',
       _sync_from_buffer canonical stat target (Kwargs (Some target) false)
         None unrecorded_world = Ok (true, w')
       /\ content (w_fs w') target = Some "[1, 2]")
  /\ (exists w',
       flush_one canonical stat target unrecorded_world = Ok (true, w')
       /\ content (w_fs w') target = Some "[1, 2]").
Proof.
  split; [by vm_compute|]. split; [by vm_compute|]. split; [by vm_compute|].
  split; (eexists; split; [by vm_compute|]; by vm_compute).
Qed.

Lemma sync_write_concern_atomic_witness :
  fst (Posixpath.split (fn_tmp target (uuids 0))) = fst (Posixpath.split target)
  /\ fn_tmp target (uuids 0) <> target.
Proof.
  assert (_filename (root true (JList [JNum 1])) = Some target) as Hf by done.
  assert (has_sep (w_uuid fresh_world (w_uuid_next fresh_world)) = false)
    as Hu by (by vm_compute).
  destruct (sync_write_concern_atomic (root true (JList [JNum 1])) JNull
              fresh_world target Hf Hu) as [H _].
  destruct (H eq_refl) as (H1 & H2 & _).
  split; [exact H1 | exact H2].
Defined.

(** ** Identity of nested nodes *)

Section node_cache.
Import NodeCache.

Lemma read_keeps_cache (p q : path) (r r' : root) (x : item) (i : nat) :
  read p r = inr (x, r') ->
  r_children r !! q = Some i -> r_children r' !! q = Some i.
Proof.
  unfold read. destruct (walk p (r_data r)) as [v|]; [|done].
  destruct (is_collection v); [|by intros [= _ <-]].
  destruct (r_children r !! p) as [k|] eqn:Hp; [by intros [= _ <-]|].
  intros [= _ <-] Hq. cbn [r_children].
  rewrite lookup_insert_ne; [done|]. intros ->. congruence.
Qed.

Lemma step_keeps_cache (o : op) (q : path) (r : root) (i : nat) :
  is_reload o = false ->
  r_children r !! q = Some i -> r_children (step r o) !! q = Some i.
Proof.
  destruct o as [p|k v|data]; [| |done]; intros _ Hq; cbn [step].
  - destruct (read p r) as [e|[x r']] eqn:Hr; [done|].
    by eapply read_keeps_cache.
  - unfold assign. by destruct (r_data r).
Qed.

Lemma steps_keeps_cache (ops : list op) (q : path) (r : root) (i : nat) :
  Forall (fun o => is_reload o = false) ops ->
  r_children r !! q = Some i -> r_children (steps r ops) !! q = Some i.
Proof.
  intros H. revert r. induction H as [|o ops Ho _ IH]; intros r Hq; [done|].
  cbn [steps foldl]. apply IH. by apply step_keeps_cache.
Qed.

Lemma read_child_cached (p : path) (r r' : root) (i : nat) :
  read p r = inr (Child i, r') -> r_children r' !! p = Some i.
Proof.
  unfold read. destruct (walk p (r_data r)) as [v|]; [|done].
  destruct (is_collection v); [|done].
  destruct (r_children r !! p) as [k|] eqn:Hp.
  - by intros [= <- <-].
  - intros [= <- <-]. cbn [r_children]. apply lookup_insert_eq.
Qed.

Lemma read_cached_child (p : path) (r r' : root) (i j : nat) :
  r_children r !! p = Some i -> read p r = inr (Child j, r') -> j = i.
Proof.
  intros Hp. unfold read. destruct (walk p (r_data r)) as [v|]; [|done].
  destruct (is_collection v); [|done]. rewrite Hp. by intros [= <- _].
Qed.

(** C5: two reads of a nested path on one root, with reads and
    assignments but no reload between them, give the same instance
    whenever both give a node; a reload empties the cache of the root, so
    that the next read of a container makes a new instance. *)
Theorem nested_read_identity_stable (r : root) (p : path) (ops : list op)
    (i j : nat) (r1 r3 : root) :
  read p r = inr (Child i, r1) ->
  Forall (fun o => is_reload o = false) ops ->
  read p (steps r1 ops) = inr (Child j, r3) ->
  i = j
  /\ (forall data, r_children (reload data r1) = ∅)
  /\ (forall data q k r', read q (reload data r1) = inr (Child k, r') ->
       k = r_next r1).
Proof.
  intros H1 Hops H2. split; [|split].
  - symmetry. eapply read_cached_child; [|exact H2].
    apply steps_keeps_cache; [exact Hops|]. by eapply read_child_cached.
  - done.
  - intros data q k r'. unfold read, reload. cbn [r_data r_children r_next].
    destruct (walk q data) as [v|]; [|done].
    destruct (is_collection v); [|done]. rewrite lookup_empty.
    by intros [= <- _].
Qed.

End node_cache.

(** ** Equality of plain structures *)

Lemma json_eqb_eq (x y : json) : json_eqb x y = true <-> x = y.
Proof.
  revert y. induction x as [|b|z|s|l IH|m IH] using json_ind_nested;
    intros y; destruct y as [|b'|z'|s'|l'|m']; cbn [json_eqb];
    try (split; [discriminate|congruence]).
  - done.
  - rewrite Bool.eqb_true_iff. split; congruence.
  - rewrite Z.eqb_eq. split; congruence.
  - rewrite String.eqb_eq. split; congruence.
  - revert l'. induction IH as [|x l Hx _ IHl]; intros [|y l'];
      try (split; [discriminate|congruence]); [done|].
    rewrite andb_true_iff, Hx.
    specialize (IHl l'). split.
    + intros [-> Hl]. apply IHl in Hl. congruence.
    + intros [= -> ->]. split; [done|]. by apply IHl.
  - revert m'. induction IH as [|[k x] m Hx _ IHm]; intros [|[k' y] m'];
      try (split; [discriminate|congruence]); [done|].
    rewrite !andb_true_iff, String.eqb_eq. cbn [snd] in Hx. rewrite Hx.
    specialize (IHm m'). split.
    + intros [[-> ->] Hm]. apply IHm in Hm. congruence.
    + intros [= -> -> ->]. split; [done|]. by apply IHm.
Qed.

Lemma json_eqb_refl (x : json) : json_eqb x x = true.
Proof. by apply json_eqb_eq. Qed.

(** ** The document store: matcher *)

Section matcher.
Import Collection.

Lemma split_dots_nonempty (s : string) : split_dots s <> [].
Proof.
  destruct s as [|c r]; [done|]. cbn [split_dots].
  destruct (Ascii.eqb c "."%char); [done|]. by destruct (split_dots r).
Qed.

(** Splitting at the dots distributes over a dot. *)
Lemma split_dots_app (a b : string) :
  split_dots (a +:+ "." +:+ b) = (split_dots a ++ split_dots b)%list.
Proof.
  induction a as [|c a IH].
  - reflexivity.
  - rewrite append_cons. cbn [split_dots]. rewrite IH.
    destruct (Ascii.eqb c "."%char); [done|].
    pose proof (split_dots_nonempty a) as Hne.
    by destruct (split_dots a).
Qed.

Lemma flatten_filter_dotted (a b : string) (v : json) :
  flatten_filter [(a +:+ "." +:+ b, v)] = flatten_filter [(a, JDict [(b, v)])].
Proof.
  unfold flatten_filter. cbn [flat_map fst snd flatten].
  by rewrite split_dots_app, !app_nil_r.
Qed.

(** C6: the query with the dotted key and the query with the nested
    mapping select the same documents, in every store, whatever the keys
    and the expected value. *)
Theorem find_dotted_is_nested (s : store) (a b : string) (v : json)
    (limit : option nat) :
  find [(a +:+ "." +:+ b, v)] limit s = find [(a, JDict [(b, v)])] limit s.
Proof.
  unfold find, matching, matches. by rewrite flatten_filter_dotted.
Qed.

End matcher.

(** ** The document store: index *)

Section index_facts.
Import Collection.

Lemma index_get_add (idx : index_t) (v u : json) (i j : string) :
  i ∈ index_get (index_add v j idx) u
  <-> (u = v /\ i = j) \/ i ∈ index_get idx u.
Proof.
  induction idx as [|[v' s] r IH]; cbn [index_add index_get].
  - destruct (json_eqb u v) eqn:E.
    + apply json_eqb_eq in E. set_solver.
    + assert (u <> v) by (intros ->; by rewrite json_eqb_refl in E).
      set_solver.
  - destruct (json_eqb v v') eqn:E; cbn [index_get].
    + apply json_eqb_eq in E. subst v'.
      destruct (json_eqb u v) eqn:E'.
      * apply json_eqb_eq in E'. set_solver.
      * assert (u <> v) by (intros ->; by rewrite json_eqb_refl in E').
        set_solver.
    + destruct (json_eqb u v') eqn:E'; [|exact IH].
      apply json_eqb_eq in E'. subst v'.
      assert (u <> v) by (intros ->; by rewrite json_eqb_refl in E).
      set_solver.
Qed.

Lemma build_index_ok (d : gmap string document) (field : string) :
  index_ok d field (build_index d field).
Proof.
  intros v i. unfold build_index.
  transitivity (exists doc, (i, doc) ∈ map_to_list d
                  /\ get_path (split_dots field) (JDict doc) = Some v).
  - induction (map_to_list d) as [|[j e] l IH]; cbn [foldr fst snd].
    + split; [set_solver|]. intros (doc & H & _). by apply elem_of_nil in H.
    + destruct (get_path (split_dots field) (JDict e)) as [x|] eqn:Hx.
      * rewrite index_get_add, IH. split.
        -- intros [[-> ->]|(doc & H1 & H2)].
           ++ exists e. split; [by left|done].
           ++ exists doc. split; [by right|done].
        -- intros (doc & H1 & H2). apply elem_of_cons in H1 as [[= -> ->]|H1].
           ++ left. split; congruence.
           ++ right. by exists doc.
      * rewrite IH. split.
        -- intros (doc & H1 & H2). exists doc. split; [by right|done].
        -- intros (doc & H1 & H2). apply elem_of_cons in H1 as [[= -> ->]|H1].
           ++ congruence.
           ++ by exists doc.
  - split; intros (doc & H1 & H2); exists doc; split; try done;
      by apply elem_of_map_to_list.
Qed.

(** The handles that the operations produce hold validated indexes. *)
Lemma valid_mutate (s : store) (d : gmap string document) :
  valid (mutate s d).
Proof. intros f idx. cbn. by rewrite lookup_empty. Qed.

Lemma valid_empty : valid empty.
Proof. intros f idx. cbn. by rewrite lookup_empty. Qed.

Lemma valid_open (file : list string) (m : open_mode) (s : store) :
  open file m = Some s -> valid s.
Proof.
  unfold open. destruct m; try (intros [= <-]; apply valid_empty);
    try (destruct (load_lines file); intros [= <-]);
    intros f idx; cbn; by rewrite lookup_empty.
Qed.

Lemma valid_insert_one (d : document) (s s' : store) (i : string) :
  insert_one d s = inr (i, s') -> valid s'.
Proof.
  unfold insert_one. destruct (assoc primary_key d) as [[| | |k| |]|];
    try done.
  - destruct (docs s !! k); [done|]. intros [= _ <-]. apply valid_mutate.
  - intros [= _ <-]. apply valid_mutate.
Qed.

Lemma valid_delete_one (f : list (string * json)) (s : store) :
  valid s -> valid (delete_one f s).
Proof.
  intros Hv. unfold delete_one. destruct (matching f s) as [|[i e] l];
    [done|apply valid_mutate].
Qed.

Lemma valid_replace_one (f : list (string * json)) (d : document)
    (s s' : store) :
  valid s -> replace_one f d s = inr s' -> valid s'.
Proof.
  intros Hv. unfold replace_one. destruct (matching f s) as [|[i e] l].
  - by intros [= <-].
  - destruct (assoc primary_key d) as [j|].
    + destruct (json_eqb j (JStr i)); [|done]. intros [= <-].
      apply valid_mutate.
    + intros [= <-]. apply valid_mutate.
Qed.

Lemma valid_index (field : string) (build : bool) (s s' : store)
    (idx : index_t) :
  valid s -> index field build s = inr (idx, s') ->
  valid s' /\ index_ok (docs s) field idx /\ docs s' = docs s.
Proof.
  intros Hv. unfold index. destruct (indexes s !! field) as [x|] eqn:Hx.
  - intros [= <- <-]. split; [done|]. split; [by apply Hv|done].
  - destruct build; [|done]. intros [= <- <-].
    split; [|split; [apply build_index_ok|done]].
    intros f idx. cbn [indexes docs].
    destruct (decide (field = f)) as [->|Hne].
    + rewrite lookup_insert_eq. intros [= <-]. apply build_index_ok.
    + rewrite lookup_insert_ne by done. apply Hv.
Qed.

Lemma index_after_mutate (s : store) (d : gmap string document)
    (field : string) :
  index field false (mutate s d) = inl MissingKey.
Proof. unfold index. cbn [indexes mutate]. by rewrite lookup_empty. Qed.

(** C4: [index(f, build=True)] succeeds and returns an index that maps
    every value to exactly the ids of the documents whose field [f],
    resolved along its dots, has that value; after an insertion, a
    deletion or a replacement the request without [build] fails with
    [MissingKey], and succeeds again once the index has been rebuilt. *)
Theorem index_built_then_invalidated (s : store) (f : string) :
  valid s ->
  (exists idx s',
     index f true s = inr (idx, s')
     /\ index_ok (docs s) f idx
     /\ docs s' = docs s
     /\ index f false s' = inr (idx, s'))
  /\ (forall d i s', insert_one d s = inr (i, s') ->
       index f false s' = inl MissingKey)
  /\ (forall flt, matching flt s <> [] ->
       index f false (delete_one flt s) = inl MissingKey)
  /\ (forall flt d s', matching flt s <> [] -> replace_one flt d s = inr s' ->
       index f false s' = inl MissingKey).
Proof.
  intros Hv. split; [|split; [|split]].
  - destruct (index f true s) as [e|[idx s']] eqn:Hi.
    { unfold index in Hi. by destruct (indexes s !! f). }
    exists idx, s'. split; [done|].
    destruct (valid_index f true s s' idx Hv Hi) as (_ & Hok & Hd).
    split; [exact Hok|]. split; [exact Hd|].
    unfold index in Hi |- *. destruct (indexes s !! f) as [x|] eqn:Hx.
    + injection Hi as <- <-. by rewrite Hx.
    + injection Hi as <- <-. cbn [indexes]. by rewrite lookup_insert_eq.
  - intros d i s'. unfold insert_one.
    destruct (assoc primary_key d) as [[| | |k| |]|]; try done.
    + destruct (docs s !! k); [done|]. intros [= _ <-].
      apply index_after_mutate.
    + intros [= _ <-]. apply index_after_mutate.
  - intros flt Hm. unfold delete_one.
    destruct (matching flt s) as [|[i e] l]; [done|].
    apply index_after_mutate.
  - intros flt d s' Hm. unfold replace_one.
    destruct (matching flt s) as [|[i e] l]; [done|].
    destruct (assoc primary_key d) as [j|].
    + destruct (json_eqb j (JStr i)); [|done]. intros [= <-].
      apply index_after_mutate.
    + intros [= <-]. apply index_after_mutate.
Qed.

(** C7: on a handle opened for reading, an insertion succeeds and changes
    the records in memory only; after it every query fails with
    [NotReady], and [flush] and [close] fail with [DisallowedOperation],
    so that the lines of the file stay what they were. *)
Theorem read_mode_mutation (s : store) (d : document) :
  mode s = ModeRead ->
  (assoc primary_key d = None -> exists i s', insert_one d s = inr (i, s'))
  /\ (forall i s', insert_one d s = inr (i, s') ->
       lines s' = lines s
       /\ mode s' = ModeRead
       /\ is_Some (docs s' !! i)
       /\ (forall j, j <> i -> docs s' !! j = docs s !! j)
       /\ (forall flt limit, find flt limit s' = inl NotReady)
       /\ (forall flt, find_one flt s' = inl NotReady)
       /\ flush s' = inl DisallowedOperation
       /\ close s' = inl DisallowedOperation).
Proof.
  intros Hm. split.
  - intros Hn. unfold insert_one. rewrite Hn. by eexists _, _.
  - intros i s' Hi.
    assert (exists e, s' = mutate s (<[i := e]> (docs s))) as [e ->].
    { unfold insert_one in Hi.
      destruct (assoc primary_key d) as [[| | |k| |]|]; try done.
      - destruct (docs s !! k); [done|]. injection Hi as <- <-. by eexists.
      - injection Hi as <- <-. by eexists. }
    cbn [mutate lines mode docs].
    split; [done|]. split; [done|].
    split; [by rewrite lookup_insert_eq|].
    split; [by intros j Hj; rewrite lookup_insert_ne|].
    unfold find_one, close, flush, find, mutate. cbn [mode dirty].
    rewrite Hm. done.
Qed.

End index_facts.

(** ** The document store and the node cache on concrete data *)

Example open_read_handle :
  Collection.open two_lines Collection.ModeRead = Some read_handle.
Proof. by vm_compute. Qed.

Example find_nested_both_ways :
  Collection.find [("a.b", JNum 0)] None nested_store
  = inr [[("_id", JStr "0"); ("a", JDict [("b", JNum 0)])]]
  /\ Collection.find [("a", JDict [("b", JNum 0)])] None nested_store
     = inr [[("_id", JStr "0"); ("a", JDict [("b", JNum 0)])]].
Proof. by vm_compute. Qed.

Lemma nested_read_identity_stable_witness :
  exists (i j : nat) (r1 r3 : NodeCache.root),
    NodeCache.read path_a nested_root = inr (NodeCache.Child i, r1)
    /\ NodeCache.read path_a
         (NodeCache.steps r1 [NodeCache.Read path_a;
                              NodeCache.Assign "b" (JNum 1)])
       = inr (NodeCache.Child j, r3)
    /\ i = j.
Proof.
  destruct (NodeCache.read path_a nested_root) as [e|[[v|i] r1]] eqn:H1;
    try (by vm_compute in H1).
  destruct (NodeCache.read path_a
              (NodeCache.steps r1 [NodeCache.Read path_a;
                                   NodeCache.Assign "b" (JNum 1)]))
    as [e|[[v|j] r3]] eqn:H2.
  - vm_compute in H1. injection H1 as <- <-. by vm_compute in H2.
  - vm_compute in H1. injection H1 as <- <-. by vm_compute in H2.
  - exists i, j, r1, r3. split; [done|]. split; [done|].
    apply (nested_read_identity_stable nested_root path_a
             [NodeCache.Read path_a; NodeCache.Assign "b" (JNum 1)]
             i j r1 r3 H1); [|exact H2].
    by repeat constructor.
Defined.

Lemma index_built_then_invalidated_witness :
  exists idx s',
    Collection.index "a.b" true nested_store = inr (idx, s')
    /\ Collection.index_ok (Collection.docs nested_store) "a.b" idx
    /\ Collection.docs s' = Collection.docs nested_store
    /\ Collection.index "a.b" false s' = inr (idx, s').
Proof.
  apply (index_built_then_invalidated nested_store "a.b").
  apply valid_mutate.
Defined.

Lemma read_mode_mutation_witness :
  exists i s', Collection.insert_one [] read_handle = inr (i, s').
Proof.
  apply (read_mode_mutation read_handle []); reflexivity.
Defined.

(** * Further properties of the backend *)

(** ** What [_sync] leaves on disk *)

Lemma run_write_ops_file (p blob : string) (now : Z) (d : fs) :
  exists f', run now d (write_ops p blob) !! p = Some f'
    /\ f_bytes f' = blob
    /\ f_readable f' = match d !! p with
                       | Some x => f_readable x
                       | None => true
                       end.
Proof.
  unfold write_ops. cbn [run fs_step].
  edestruct (run_appends_bytes p blob (now + 1)) as (f' & H1 & H2 & H3).
  { apply lookup_insert_eq. }
  exists f'. split; [exact H1|]. cbn [f_bytes f_readable] in H2, H3.
  split; [by rewrite H2|exact H3].
Qed.

Lemma append_inj_l (a b c : string) : a +:+ b = a +:+ c -> b = c.
Proof.
  induction a as [|x a IH]; [done|].
  rewrite !append_cons. intros [= H]. by apply IH.
Qed.

Lemma append_inj_r (a b c : string) : a +:+ c = b +:+ c -> a = b.
Proof.
  revert b. induction a as [|x a IH]; intros [|y b] H.
  - done.
  - apply (f_equal String.length) in H. rewrite !length_append in H.
    cbn [String.length] in H. lia.
  - apply (f_equal String.length) in H. rewrite !length_append in H.
    cbn [String.length] in H. lia.
  - rewrite !append_cons in H. injection H as -> H. f_equal. by apply IH.
Qed.

Lemma join_inj (d b c : string) :
  starts_with_sep b = false -> starts_with_sep c = false ->
  join d b = join d c -> b = c.
Proof.
  unfold join. intros -> ->. destruct d as [|x d].
  - by rewrite !append_nil_l.
  - destruct (ends_with_sep (String x d)); intros H;
      apply append_inj_l in H; [done|].
    by apply append_inj_l in H.
Qed.

(** Two calls of [uuid4] that differ give two temporary files: the name
    of the temporary file determines the uuid it was made from. *)
Theorem fn_tmp_inj (filename u1 u2 : string) :
  fn_tmp filename u1 = fn_tmp filename u2 -> u1 = u2.
Proof.
  unfold fn_tmp. destruct (split filename) as [dirname fn]. intros H.
  apply join_inj in H; [|done|done].
  apply (append_inj_l "._") in H.
  by apply append_inj_r in H.
Qed.

Lemma run_replace_frame (tmp filename blob : string) (now : Z) (d : fs) :
  tmp <> filename ->
  run now d (write_ops tmp blob ++ [OpReplace tmp filename]) !! tmp = None
  /\ forall q, q <> filename -> q <> tmp ->
       run now d (write_ops tmp blob ++ [OpReplace tmp filename]) !! q
       = d !! q.
Proof.
  intros Hne. rewrite run_app.
  destruct (run_write_ops_bytes tmp blob now d) as (f' & H1 & _).
  pose proof (fun q => run_write_ops_other tmp q blob now d) as Ho.
  revert H1 Ho. generalize (run now d (write_ops tmp blob)). intros X H1 Ho.
  cbn [run fs_step]. rewrite H1. split.
  - rewrite lookup_insert_ne by done. apply lookup_delete_eq.
  - intros q Hq Hq'. rewrite lookup_insert_ne by done.
    rewrite lookup_delete_ne by done. by apply Ho.
Qed.

(** With write concern the one file that [_sync] changes is the target,
    and the temporary file is gone when it returns; without, the target
    is the one file written.  Cache and buffer are not touched. *)
Theorem sync_touches_only_target (self : node) (data : json) (w w' : world)
    (filename : string) :
  _filename self = Some filename ->
  has_sep (w_uuid w (w_uuid_next w)) = false ->
  _sync self data w = Ok w' ->
  let tmp := fn_tmp filename (w_uuid w (w_uuid_next w)) in
  (kw_write_concern (_backend_kwargs self) = true ->
   w_fs w' !! tmp = None
   /\ forall q, q <> filename -> q <> tmp -> w_fs w' !! q = w_fs w !! q)
  /\ (kw_write_concern (_backend_kwargs self) = false ->
      forall q, q <> filename -> w_fs w' !! q = w_fs w !! q)
  /\ w_cache w' = w_cache w
  /\ w_buffer w' = w_buffer w
  /\ w_buffered w' = w_buffered w.
Proof.
  intros Hf Hu Hs tmp. unfold _sync in Hs. rewrite Hf in Hs.
  destruct (kw_write_concern (_backend_kwargs self)); cbn [uuid4] in Hs;
    injection Hs as <-; cbn [set_fs w_fs w_clock w_cache w_buffer w_buffered].
  - split; [|split; [done|done]]. intros _.
    assert (tmp <> filename) as Hne by (by apply fn_tmp_neq).
    unfold _sync_ops. fold tmp. by apply run_replace_frame.
  - split; [done|]. split; [|done]. intros _ q Hq.
    unfold _sync_ops. by apply run_write_ops_other.
Qed.

(** What [_sync] has written, [_load] reads back: the node's snapshot,
    or the data given, provided the text of the data is read as the
    data and the file written may be read. *)
Theorem sync_then_load (self : node) (data : json) (w : world)
    (filename : string) :
  let d := if is_null data then to_base self else data in
  let written :=
    if kw_write_concern (_backend_kwargs self)
    then fn_tmp filename (w_uuid w (w_uuid_next w)) else filename in
  _filename self = Some filename ->
  json_loads (json_dumps d) = Some d ->
  (forall x, w_fs w !! written = Some x -> f_readable x = true) ->
  exists w', _sync self data w = Ok w' /\ _load self w' = Ok d.
Proof.
  intros d written Hf Hrt Hr. unfold _sync. rewrite Hf.
  assert (forall p now fs0,
            (forall x, fs0 !! p = Some x -> f_readable x = true) ->
            exists f', run now fs0 (write_ops p (json_dumps d)) !! p = Some f'
              /\ f_bytes f' = json_dumps d /\ f_readable f' = true) as Hw.
  { intros p now fs0 Hp.
    destruct (run_write_ops_file p (json_dumps d) now fs0)
      as (f' & H1 & H2 & H3).
    exists f'. split; [done|]. split; [done|]. rewrite H3.
    destruct (fs0 !! p) as [x|]; [by apply Hp|done]. }
  subst written. destruct (kw_write_concern (_backend_kwargs self));
    cbn [uuid4]; eexists; (split; [reflexivity|]);
    unfold _load, open_rb; rewrite Hf; cbn [set_fs w_fs w_clock].
  - unfold _sync_ops. rewrite run_app. cbn [run fs_step].
    destruct (Hw _ (w_clock w) (w_fs w) Hr) as (f' & H1 & H2 & H3).
    fold d. rewrite H1, lookup_insert_eq, H3, H2, Hrt. done.
  - unfold _sync_ops.
    destruct (Hw _ (w_clock w) (w_fs w) Hr) as (f' & H1 & H2 & H3).
    fold d. rewrite H1, H3, H2, Hrt. done.
Qed.

(** ** The cache and the buffer *)

(** What [_write_to_cache] stores under the file name,
    [_read_from_cache] gives back; the entries of other files stay, and
    so does the file system.  A file name without entry reads as
    [None], not as a [KeyError]. *)
Theorem write_then_read_cache (self : node) (data : json) (w : world)
    (filename : string) :
  let d := if is_null data then to_base self else data in
  _filename self = Some filename ->
  json_loads (json_dumps d) = Some d ->
  (w_cache w !! filename = None -> _read_from_cache self w = Ok JNull)
  /\ exists w',
      _write_to_cache self data w = Ok w'
      /\ _read_from_cache self w' = Ok d
      /\ w_fs w' = w_fs w
      /\ w_buffer w' = w_buffer w
      /\ forall g, g <> filename -> w_cache w' !! g = w_cache w !! g.
Proof.
  intros d Hf Hrt. split.
  - intros Hn. unfold _read_from_cache. by rewrite Hf, Hn.
  - unfold _write_to_cache, _read_from_cache. rewrite Hf. eexists.
    split; [reflexivity|]. cbn [set_cache w_cache w_fs w_buffer].
    rewrite lookup_insert_eq. fold d. rewrite Hrt.
    split; [done|]. split; [done|]. split; [done|].
    intros g Hg. by rewrite lookup_insert_ne.
Qed.

Section buffer_facts.

Variable realpath : string -> string.
Variable probe : fs -> string -> option metadata.

(** [_sync_from_buffer] compares before it reads the cache: an entry
    whose metadata differs is abandoned with [False] and the process as
    it was, whatever the cache holds.  Past the comparison a snapshot
    that is missing raises [KeyError] and one that is no JSON text
    raises [JSONDecodeError]. *)
Theorem sync_from_buffer_failures (id : string) (kwargs : backend_kwargs)
    (md : option metadata) (w : world) :
  (forall m, md = Some m -> probe (w_fs w) id <> Some m ->
   _sync_from_buffer realpath probe id kwargs md w = Ok (false, w))
  /\ ((forall m, md = Some m -> probe (w_fs w) id = Some m) ->
      (w_cache w !! id = None ->
       _sync_from_buffer realpath probe id kwargs md w = Raise KeyError)
      /\ (forall blob, w_cache w !! id = Some blob ->
          json_loads blob = None ->
          _sync_from_buffer realpath probe id kwargs md w
          = Raise JSONDecodeError)).
Proof.
  split.
  - intros m -> Hp. unfold _sync_from_buffer, _get_metadata.
    rewrite bool_decide_eq_false_2 by congruence. done.
  - intros Hp.
    assert (match md with
            | Some m => negb (bool_decide (Some m = _get_metadata probe w id))
            | None => false
            end = false) as Hs.
    { destruct md as [m|]; [|done]. unfold _get_metadata.
      rewrite (Hp m eq_refl). by rewrite bool_decide_eq_true_2. }
    unfold _sync_from_buffer. rewrite Hs. split.
    + by intros ->.
    + by intros blob -> ->.
Qed.

(** A buffered write and its flush: [_write_to_cache] and
    [_write_to_buffer] leave the file system as it is and record a
    pending entry; flushed while the file still has the metadata
    recorded, the entry is stored and the file holds the snapshot. *)
Theorem stage_then_flush (self : node) (w : world) (filename : string) :
  _filename self = Some filename ->
  kw_filename (_backend_kwargs self) = Some filename ->
  realpath filename = filename ->
  is_collection (_data self) = true ->
  json_loads (json_dumps (_data self)) = Some (_data self) ->
  exists w1 w2 w3,
    _write_to_cache self JNull w = Ok w1
    /\ _write_to_buffer probe self w1 = Ok w2
    /\ w_fs w2 = w_fs w
    /\ w_buffer w2 !! filename
       = Some (_backend_kwargs self, probe (w_fs w) filename)
    /\ flush_one realpath probe filename w2 = Ok (true, w3)
    /\ content (w_fs w3) filename = Some (json_dumps (_data self)).
Proof.
  intros Hf Hk Hr Hc Hrt.
  unfold _write_to_cache, _write_to_buffer. rewrite Hf. cbn [is_null].
  set (w1 := set_cache w (<[filename := json_dumps (to_base self)]>
                            (w_cache w))).
  set (md := _get_metadata probe w1 filename).
  set (w2 := _store_in_buffer filename (_backend_kwargs self) md w1).
  assert (w_buffer w2 !! filename = Some (_backend_kwargs self, md)) as Hb.
  { subst w2. unfold _store_in_buffer. cbn [set_buffer w_buffer].
    apply lookup_insert_eq. }
  assert (exists w3, flush_one realpath probe filename w2 = Ok (true, w3)
            /\ content (w_fs w3) (realpath filename)
               = Some (json_dumps (_data self))) as (w3 & H1 & H2).
  { unfold flush_one. rewrite Hb.
    apply (sync_from_buffer_writes realpath probe filename
             (_backend_kwargs self) md _ (json_dumps (_data self))
             (_data self) filename); try done.
    cbn. apply lookup_insert_eq. }
  exists w1, w2, w3. split; [done|]. split; [done|]. split; [done|].
  split; [exact Hb|]. split; [exact H1|]. by rewrite Hr in H2.
Qed.

End buffer_facts.

(** * The administration tool *)

Section admin_facts.
Import Py Admin.

(** [get_roles] returns one role, a legal one, and leaves it in
    [args.role]; for [add], whose arguments have [readonly], it cannot
    fail and the role follows the flag. *)
Theorem get_roles_legal (a : args) :
  (forall rs a', get_roles a = (Ok rs, a') ->
     (rs = ["read"] \/ rs = ["readWrite"]) /\ Some <$> rs = [a_role a'])
  /\ (forall b, a_readonly a = Some b ->
      fst (get_roles a) = Ok [if b then "read" else "readWrite"]).
Proof.
  split.
  - intros rs a'. unfold get_roles.
    destruct (a_readonly a) as [[|]|]; cbn [set_role a_role].
    + intros [= <- <-]. split; [by left|done].
    + intros [= <- <-]. split; [by right|done].
    + destruct (a_role a) as [r|] eqn:Hr; [|done]. case_bool_decide as Hl; [|done].
      intros [= <- <-]. rewrite Hr. split; [|done].
      unfold LEGAL_ROLES in Hl. set_solver.
  - intros [|] Hb; unfold get_roles; rewrite Hb; reflexivity.
Qed.

Section username.
Variable isfile : string -> bool.
Variable subject : string -> result string.

(** [get_username] gives [None] for a user that is [None] and also, with
    [--ssl], for every user that is not the path of a file; in no other
    case. *)
Theorem get_username_none (a : args) :
  get_username isfile subject a = Ok None
  <-> a_user a = None
      \/ exists u, a_user a = Some u /\ a_ssl a = true /\ isfile u = false.
Proof.
  unfold get_username. destruct (a_user a) as [u|]; [|by split; [left|]].
  destruct (a_ssl a) eqn:Hs.
  - destruct (isfile u) eqn:Hi.
    + split.
      * destruct (subject u); discriminate.
      * intros [|(u' & [= <-] & _ & H)]; congruence.
    + split; [|done]. intros _. right. by exists u.
  - split; [discriminate|]. intros [|(u' & _ & H & _)]; congruence.
Qed.

End username.

Lemma decode_role_getitem (j : json) (r : role_entry) :
  decode_role j = Some r ->
  getitem j "db" = Ok (JStr (re_db r)) /\ getitem j "role" = Ok (JStr (re_role r)).
Proof.
  unfold decode_role, getitem. destruct j as [| | | | |m]; try done.
  destruct (assoc "role" m) as [[| | |x| |]|]; try done.
  destruct (assoc "db" m) as [[| | |y| |]|]; try done.
  by intros [= <-].
Qed.

Lemma in_strs_str (s : string) (dbs : list string) :
  in_strs (JStr s) dbs = bool_decide (s ∈ dbs).
Proof. reflexivity. Qed.

Lemma mapM_cons_Some {A B} (f : A -> option B) (x : A) (l : list A)
    (ys : list B) :
  mapM f (x :: l) = Some ys ->
  exists y k, f x = Some y /\ mapM f l = Some k /\ ys = y :: k.
Proof.
  cbn. destruct (f x) as [y|]; [|done]. cbn.
  destruct (mapM f l) as [k|]; [|done]. cbn. intros [= <-]. by exists y, k.
Qed.

Lemma any_role_in_decoded (l : list json) (rs : list role_entry)
    (dbs : list string) :
  mapM decode_role l = Some rs ->
  any_role_in l dbs = Ok (existsb (fun r => bool_decide (re_db r ∈ dbs)) rs).
Proof.
  revert rs. induction l as [|j l IH]; intros rs H.
  - by injection H as <-.
  - apply mapM_cons_Some in H as (r & k & Hr & Hk & ->).
    destruct (decode_role_getitem j r Hr) as [Hd _].
    cbn [any_role_in existsb]. rewrite Hd, in_strs_str.
    destruct (bool_decide (re_db r ∈ dbs)); [done|]. by apply IH.
Qed.

Lemma roles_in_decoded (l : list json) (rs : list role_entry)
    (dbs : list string) :
  mapM decode_role l = Some rs ->
  roles_in l dbs
  = (map (fun r => JStr (re_role r))
       (List.filter (fun r => bool_decide (re_db r ∈ dbs)) rs), None).
Proof.
  revert rs. induction l as [|j l IH]; intros rs H.
  - by injection H as <-.
  - apply mapM_cons_Some in H as (r & k & Hr & Hk & ->).
    destruct (decode_role_getitem j r Hr) as [Hd Hro].
    cbn [roles_in List.filter]. rewrite Hd, in_strs_str.
    destruct (bool_decide (re_db r ∈ dbs)).
    + rewrite Hro, (IH k Hk). reflexivity.
    + by apply IH.
Qed.

Lemma decode_user_getitem (j : json) (u : user_entry) :
  decode_user j = Some u ->
  getitem j "user" = Ok (JStr (ue_user u))
  /\ exists l, getitem j "roles" = Ok (JList l)
       /\ mapM decode_role l = Some (ue_roles u).
Proof.
  unfold decode_user, getitem. destruct j as [| | | | |m]; try done.
  destruct (assoc "user" m) as [[| | |x| |]|]; try done.
  destruct (assoc "roles" m) as [[| | | |l|]|]; try done.
  destruct (mapM decode_role l) as [rs|] eqn:Hl; [|done].
  cbn. intros [= <-]. split; [done|]. by exists l.
Qed.

Lemma decode_info_getitem (info : json) (us : list user_entry) :
  decode_info info = Some us ->
  exists l, getitem info "users" = Ok (JList l)
    /\ mapM decode_user l = Some us.
Proof.
  unfold decode_info, getitem. destruct info as [| | | | |m]; try done.
  destruct (assoc "users" m) as [[| | | |l|]|]; try done.
  intros H. by exists l.
Qed.

(** On a reply of [usersInfo], [collect_users] yields, in the order of
    the reply and once for each entry, the users that have a role on
    one of the databases, and ends without exception. *)
Theorem collect_users_decoded (info : json) (us : list user_entry)
    (dbs : list string) :
  decode_info info = Some us ->
  collect_users info dbs
  = (map (fun u => JStr (ue_user u)) (List.filter (has_role_in dbs) us),
     None).
Proof.
  intros H. apply decode_info_getitem in H as (l & Hg & Hl).
  unfold collect_users. rewrite Hg. cbn [mbind result_bind iter]. clear Hg.
  revert us Hl. induction l as [|j l IH]; intros us Hl.
  - by injection Hl as <-.
  - apply mapM_cons_Some in Hl as (u & k & Hu & Hk & ->).
    destruct (decode_user_getitem j u Hu) as (Hn & rl & Hr & Hrl).
    cbn [collect_users_from List.filter]. rewrite Hr.
    cbn [mbind result_bind iter]. rewrite (any_role_in_decoded rl _ dbs Hrl).
    unfold has_role_in at 1.
    destruct (existsb _ (ue_roles u)).
    + rewrite Hn, (IH k Hk). reflexivity.
    + by apply IH.
Qed.

(** And [collect_roles] yields the roles, on one of the databases, of
    the entries of the user. *)
Theorem collect_roles_decoded (info : json) (us : list user_entry)
    (dbs : list string) (name : string) :
  decode_info info = Some us ->
  collect_roles info dbs (JStr name)
  = (map (fun r => JStr (re_role r))
       (List.filter (fun r => bool_decide (re_db r ∈ dbs))
          (flat_map ue_roles
             (List.filter (fun u => String.eqb (ue_user u) name) us))),
     None).
Proof.
  intros H. apply decode_info_getitem in H as (l & Hg & Hl).
  unfold collect_roles. rewrite Hg. cbn [mbind result_bind iter]. clear Hg.
  revert us Hl. induction l as [|j l IH]; intros us Hl.
  - by injection Hl as <-.
  - apply mapM_cons_Some in Hl as (u & k & Hu & Hk & ->).
    destruct (decode_user_getitem j u Hu) as (Hn & rl & Hr & Hrl).
    cbn [collect_roles_from List.filter]. rewrite Hn. cbn [json_eqb].
    destruct (String.eqb (ue_user u) name).
    + rewrite Hr. cbn [mbind result_bind iter].
      rewrite (roles_in_decoded rl _ dbs Hrl), (IH k Hk).
      cbn [flat_map]. by rewrite List.filter_app, List.map_app.
    + by apply IH.
Qed.

Lemma filter_nonempty_existsb {A} (p : A -> bool) (l : list A) :
  List.filter p l <> [] <-> existsb p l = true.
Proof.
  induction l as [|x l IH]; cbn [List.filter existsb]; [done|].
  destruct (p x); [done|]. exact IH.
Qed.

(** The two generators agree: a user is among those [collect_users]
    yields exactly when [collect_roles] yields a role for it (what
    [show_users] prints as users and as their roles). *)
Theorem collected_users_have_roles (info : json) (us : list user_entry)
    (dbs : list string) (name : string) :
  decode_info info = Some us ->
  JStr name ∈ fst (collect_users info dbs)
  <-> fst (collect_roles info dbs (JStr name)) <> [].
Proof.
  intros H.
  rewrite (collect_users_decoded info us dbs H),
    (collect_roles_decoded info us dbs name H). cbn [fst]. clear H.
  transitivity (exists u, In u us /\ ue_user u = name
                          /\ has_role_in dbs u = true).
  - rewrite list_elem_of_In, List.in_map_iff. split.
    + intros (u & [= Hn] & [Hin Hr]%List.filter_In). by exists u.
    + intros (u & Hin & Hn & Hr). exists u. split; [by rewrite Hn|].
      by apply List.filter_In.
  - split.
    + intros (u & Hin & Hn & Hr) Hnil. apply map_eq_nil in Hnil.
      revert Hnil. apply filter_nonempty_existsb.
      unfold has_role_in in Hr. apply List.existsb_exists in Hr
        as (r & Hr1 & Hr2).
      apply List.existsb_exists. exists r. split; [|done].
      apply List.in_flat_map. exists u. split; [|done].
      apply List.filter_In. split; [done|]. by apply String.eqb_eq.
    + intros Hne.
      assert (List.filter (fun r => bool_decide (re_db r ∈ dbs))
                (flat_map ue_roles
                   (List.filter (fun u => String.eqb (ue_user u) name) us))
              <> []) as Hf.
      { intros Hnil. apply Hne. by rewrite Hnil. }
      apply filter_nonempty_existsb in Hf.
      apply List.existsb_exists in Hf as (r & Hr1 & Hr2).
      apply List.in_flat_map in Hr1 as (u & Hu & Hr1).
      apply List.filter_In in Hu as [Hin Hn].
      exists u. split; [done|]. split; [by apply String.eqb_eq|].
      unfold has_role_in. apply List.existsb_exists. by exists r.
Qed.

Section update_facts.
Variable isfile : string -> bool.
Variable subject : string -> result string.
Variable project : Type.
Variable get_project : args -> result project.
Variable get_client : project -> result unit.
Variable reply :
  string -> string -> option string -> option string -> result json.

Local Abbreviation update_user :=
  (update_user isfile subject project get_project get_client reply).

Local Ltac early :=
  split; [intros _; split; [done|eauto]
         |split; [intros; split; [eauto|by left]|done]].

(** [update_user] sends [updateUser] in one case only: without [--ssl],
    with [--password], and after the same password was typed twice.
    With [--ssl], or without [--password], it raises with nothing read
    and nothing sent; when the two passwords differ it raises
    [ValueError] after the two prompts. *)
Theorem update_user_commands (a : args) (e e' : env) (r : result unit) :
  update_user a e = (r, e') ->
  (a_ssl a = true \/ a_password a = false ->
   e' = e /\ exists x, r = Raise x)
  /\ (forall p1 p2 rest, a_ssl a = false -> a_password a = true ->
      typed e = p1 :: p2 :: rest -> p1 <> p2 ->
      (exists x, r = Raise x)
      /\ forall ev, ev ∈ trace e' ->
           ev ∈ trace e \/ exists prompt, ev = Getpass prompt)
  /\ (r = Ok tt ->
      a_ssl a = false /\ a_password a = true
      /\ exists pwd rest,
          typed e = pwd :: pwd :: rest
          /\ typed e' = rest
          /\ trace e'
             = (trace e ++
                [Getpass ("Enter new password for user '"
                          +:+ str_of (a_user a) +:+ "': ");
                 Getpass "Confirm password: ";
                 Command "admin" "updateUser" (a_user a) (Some pwd);
                 Print "OK."])%list).
Proof.
  intros H.
  unfold Admin.update_user, prompt_password, command, emit, getpass,
    io_bind, io_lift, io_raise, io_ret in H.
  destruct (get_project a) as [p|x]; [|injection H as <- <-; early].
  destruct (get_client p) as [[]|x]; [|injection H as <- <-; early].
  destruct (get_username isfile subject a) as [username|x] eqn:Hu;
    [|injection H as <- <-; early].
  destruct (a_password a) eqn:Hp, (a_ssl a) eqn:Hs; cbn [andb] in H;
    try (injection H as <- <-; early).
  assert (username = a_user a) as ->.
  { unfold get_username in Hu. rewrite Hs in Hu.
    destruct (a_user a); congruence. }
  split; [intros [|]; done|].
  destruct (typed e) as [|p1 [|p2 rest]] eqn:Ht; cbn [typed trace] in H;
    cbn beta iota in H.
  - injection H as <- <-. split; [done|done].
  - injection H as <- <-. split; [done|done].
  - case_bool_decide as Hpp; cbn beta iota in H.
    + subst p2. split; [by intros ? ? ? _ _ [= -> -> _] ?|].
      destruct (reply "admin" "updateUser" (a_user a) (Some p1)) as [res|x];
        cbn beta iota in H; [|by injection H as <- <-].
      destruct (getitem res "ok") as [ok|x]; cbn beta iota in H;
        [|by injection H as <- <-].
      destruct (truth ok); cbn beta iota in H; injection H as <- <-;
        [|done].
      intros _. split; [done|]. split; [done|]. exists p1, rest.
      cbn [typed trace]. by rewrite <- !app_assoc.
    + injection H as <- <-. split; [|done].
      intros q1 q2 rest' _ _ _ _. split; [eauto|].
      cbn [trace]. intros ev. rewrite !elem_of_app, !list_elem_of_singleton.
      intros [[?| ->]| ->]; eauto.
Qed.

(** With [--ssl] and a user that is not the path of a file,
    [user_exists] asks the database about no user in particular: the
    one command it sends is [usersInfo] with [None]. *)
Theorem user_exists_without_username (a : args) (e : env) (u : string) :
  a_user a = Some u -> a_ssl a = true -> isfile u = false ->
  exists r,
    user_exists isfile subject reply a e
    = (r, Env (typed e)
            (trace e ++ [Command "$external" "usersInfo" None None]))
    /\ forall info, reply "$external" "usersInfo" None None = Ok info ->
         r = (us ← getitem info "users"; Ok (truth us)).
Proof.
  intros Hu Hs Hi.
  unfold user_exists, command, emit, get_username, get_db_auth, io_bind,
    io_lift, io_ret. rewrite Hu, Hs, Hi.
  destruct (reply "$external" "usersInfo" None None) as [info|x];
    cbn beta iota.
  - destruct (getitem info "users") as [us|x] eqn:Hg.
    + eexists. split; [reflexivity|]. intros ? [= <-]. by rewrite Hg.
    + eexists. split; [reflexivity|]. intros ? [= <-]. by rewrite Hg.
  - eexists. split; [reflexivity|]. done.
Qed.

End update_facts.

End admin_facts.

(** ** The further properties on concrete data *)

Lemma fn_tmp_inj_witness : uuids 3 = uuids 3.
Proof. apply (fn_tmp_inj target (uuids 3) (uuids 3)). reflexivity. Defined.

Lemma sync_touches_only_target_witness :
  exists w',
    _sync (root true (JList [JNum 1])) JNull fresh_world = Ok w'
    /\ w_fs w' !! fn_tmp target (uuids 0) = None.
Proof.
  destruct (_sync_ok (root true (JList [JNum 1])) JNull fresh_world target
              eq_refl) as (w' & Hs & _).
  exists w'. split; [exact Hs|].
  assert (has_sep (w_uuid fresh_world (w_uuid_next fresh_world)) = false)
    as Hu by (by vm_compute).
  destruct (sync_touches_only_target (root true (JList [JNum 1])) JNull
              fresh_world w' target eq_refl Hu Hs) as [H _].
  exact (proj1 (H eq_refl)).
Defined.

Lemma sync_then_load_witness :
  exists w',
    _sync (root false (JList [JNum 1])) JNull fresh_world = Ok w'
    /\ _load (root false (JList [JNum 1])) w' = Ok (JList [JNum 1]).
Proof.
  apply (sync_then_load (root false (JList [JNum 1])) JNull fresh_world
           target).
  - reflexivity.
  - by vm_compute.
  - intros x Hx. by vm_compute in Hx.
Defined.

Lemma write_then_read_cache_witness :
  exists w',
    _write_to_cache (root false (JList [JNum 1])) JNull fresh_world = Ok w'
    /\ _read_from_cache (root false (JList [JNum 1])) w' = Ok (JList [JNum 1]).
Proof.
  destruct (write_then_read_cache (root false (JList [JNum 1])) JNull
              fresh_world target eq_refl) as [_ (w' & H1 & H2 & _)].
  - by vm_compute.
  - by exists w'.
Defined.

Lemma sync_from_buffer_failures_witness :
  _sync_from_buffer canonical stat target (Kwargs (Some target) true)
    (Some (2, 42)) conflict_world = Ok (false, conflict_world).
Proof.
  apply (proj1 (sync_from_buffer_failures canonical stat target
                  (Kwargs (Some target) true) (Some (2, 42)) conflict_world)
           (2, 42) eq_refl).
  by vm_compute.
Defined.

Lemma stage_then_flush_witness :
  exists w1 w2 w3,
    _write_to_cache (root false (JList [JNum 1])) JNull buffered_world = Ok w1
    /\ _write_to_buffer stat (root false (JList [JNum 1])) w1 = Ok w2
    /\ w_fs w2 = w_fs buffered_world
    /\ w_buffer w2 !! target
       = Some (Kwargs (Some target) false, stat (w_fs buffered_world) target)
    /\ flush_one canonical stat target w2 = Ok (true, w3)
    /\ content (w_fs w3) target = Some (json_dumps (JList [JNum 1])).
Proof.
  apply (stage_then_flush canonical stat (root false (JList [JNum 1]))
           buffered_world target); by vm_compute.
Defined.

Section admin_examples.
Import Py Admin AdminExamples.

Lemma get_roles_legal_witness : fst (get_roles add_args) = Ok ["read"].
Proof. apply (proj2 (get_roles_legal add_args) true). reflexivity. Defined.

Lemma collect_users_decoded_witness :
  collect_users users_info ["proj"] = ([JStr "ann"], None).
Proof.
  apply (collect_users_decoded users_info users_decoded ["proj"]).
  reflexivity.
Defined.

Lemma collect_roles_decoded_witness :
  collect_roles users_info ["proj"] (JStr "ann") = ([JStr "read"], None).
Proof.
  apply (collect_roles_decoded users_info users_decoded ["proj"] "ann").
  reflexivity.
Defined.

Lemma collected_users_have_roles_witness :
  fst (collect_roles users_info ["proj"] (JStr "ann")) <> [].
Proof.
  apply (collected_users_have_roles users_info users_decoded ["proj"] "ann").
  - reflexivity.
  - by vm_compute; left.
Defined.

Lemma update_user_commands_witness :
  typed typing = ["s3cret"; "s3cret"]
  /\ exists e',
      update_user no_file no_subject unit one_project one_client ok_reply
        update_args typing = (Ok tt, e')
      /\ Command "admin" "updateUser" (Some "ann") (Some "s3cret") ∈ trace e'.
Proof.
  split; [reflexivity|].
  destruct (update_user no_file no_subject unit one_project one_client
              ok_reply update_args typing) as [r e'] eqn:H.
  assert (r = Ok tt) as -> by (by vm_compute in H; injection H as <- _).
  exists e'. split; [reflexivity|].
  destruct (update_user_commands no_file no_subject unit one_project
              one_client ok_reply update_args typing e' (Ok tt) H)
    as (_ & _ & Hok).
  destruct (Hok eq_refl) as (_ & _ & pwd & rest & Ht & _ & ->).
  injection Ht as <- _. cbn.
  apply list_elem_of_In. cbn. tauto.
Defined.

Lemma user_exists_without_username_witness :
  exists r,
    user_exists no_file no_subject ok_reply ssl_args typing
    = (r, Env (typed typing)
            (trace typing ++ [Command "$external" "usersInfo" None None])).
Proof.
  destruct (user_exists_without_username no_file no_subject ok_reply ssl_args
              typing "ann" eq_refl eq_refl eq_refl) as (r & H & _).
  by exists r.
Defined.

End admin_examples.

(** * The database connector *)

Section connection_facts.
Import Py Connection.

Variable client : Type.
Variable MongoClient : mongo_args -> result client.
Variable db_authenticate :
  client -> json -> json -> option json -> string -> result unit.
Variable db_logout : client -> json -> result unit.
Variable expanduser : string -> string.
Variable check_output : string -> process.
Variable PYMONGO_AVAILABLE : bool.
Variable PYMONGO_3 : bool.

#[local] Set Default Proof Using "Type".

Local Abbreviation connect :=
  (connect client MongoClient expanduser PYMONGO_AVAILABLE PYMONGO_3).
Local Abbreviation authenticate :=
  (authenticate client db_authenticate expanduser check_output).
Local Abbreviation logout := (logout client db_logout).

Local Ltac tidy :=
  try clear db_authenticate; try clear db_logout; try clear check_output;
  try clear MongoClient; try clear expanduser;
  try clear PYMONGO_AVAILABLE; try clear PYMONGO_3.

Local Ltac unfold_ops :=
  unfold Connection.connect, Connection.authenticate, Connection.logout,
    _connect_pymongo3, _connect_pymongo2, mongo, subject, authenticate_db,
    logout_db, raise_unsupported_auth_mechanism, expand, host, record,
    get_client, set_client, _config_get, _config_get_required,
    bind, ret, raise, lift in *.

(** [connect] needs ['url'] in the configuration, also when a host is
    given: without it the call raises [KeyError] and nothing else
    happens. *)
Theorem connect_needs_url (h : json) (c : connector client) :
  assoc "url" (_config client c) = None ->
  connect h c = (Raise KeyError, c).
Proof.
  tidy.
  intros Hu. unfold_ops. destruct h; cbn beta; by rewrite Hu.
Qed.

Local Abbreviation outcome := (outcome client MongoClient).

Lemma raised_outcome (c : connector client) (e : exn) :
  outcome c (@Raise unit e) c.
Proof.
  tidy.
  split; [done|]. split; [done|]. intros ? _. split; [done|by left].
Qed.

Lemma mongo_set_client_outcome (a : mongo_args) (c c' : connector client)
    (r : result unit) :
  bind client (mongo client MongoClient a) (set_client client) c = (r, c') ->
  outcome c r c'.
Proof.
  tidy.
  unfold bind, mongo, set_client, record, lift. cbn beta iota.
  destruct (MongoClient a) as [x|e] eqn:Hm; intros [= <- <-];
    cbn [_config _client calls].
  - split; [done|]. split; [|done]. intros _. by exists a, x.
  - split; [done|]. split; [done|]. intros ? [= <-]. split; [done|].
    right. by exists a.
Qed.

Lemma required_then (key : string) (B : Type) (k : json -> op client B)
    (c : connector client) :
  bind client (_config_get_required client key) k c
  = match assoc key (_config client c) with
    | Some x => k x c
    | None => (Raise KeyError, c)
    end.
Proof.
  tidy.
  unfold bind, _config_get_required. by destruct (assoc key _).
Qed.

Lemma get_then (key : string) (d : json) (B : Type) (k : json -> op client B)
    (c : connector client) :
  bind client (_config_get client key d) k c
  = k (match assoc key (_config client c) with
        | Some x => x
        | None => d
        end) c.
Proof. tidy. reflexivity. Qed.

Lemma required_expand_then (key : string) (B : Type)
    (k : string -> op client B) (c : connector client) :
  bind client
    (bind client (_config_get_required client key) (expand client expanduser))
    k c
  = match assoc key (_config client c) with
    | Some (JStr s) => k (expanduser s) c
    | Some _ => (Raise TypeError, c)
    | None => (Raise KeyError, c)
    end.
Proof.
  tidy.
  unfold bind, _config_get_required, expand, ret, raise.
  destruct (assoc key _) as [[| | | | |]|]; reflexivity.
Qed.

Lemma get_lift_then (key : string) (d : json) (A B : Type)
    (f : json -> result A) (k : A -> op client B) (c : connector client) :
  bind client
    (bind client (_config_get client key d) (fun j => lift client (f j))) k c
  = match f (match assoc key (_config client c) with
             | Some x => x
             | None => d
             end) with
    | Ok x => k x c
    | Raise e => (Raise e, c)
    end.
Proof. tidy. reflexivity. Qed.

Lemma in_strs_true (j : json) (l : list string) :
  in_strs j l = true -> exists m, j = JStr m /\ m ∈ l.
Proof.
  tidy.
  destruct j; try discriminate. cbn [in_strs].
  intros H%bool_decide_eq_true_1. eauto.
Qed.

Lemma connect_pymongo3_outcome (h : json) (c c' : connector client)
    (r : result unit) :
  _connect_pymongo3 client MongoClient expanduser h c = (r, c') ->
  outcome c r c' /\ (r = Ok tt -> connectable (_config client c)).
Proof.
  tidy.
  unfold _connect_pymongo3. rewrite !get_then.
  unfold connectable.
  destruct (in_strs _ [AUTH_NONE; AUTH_SCRAM_SHA_1]) eqn:H1.
  { intros H. split; [by eapply mongo_set_client_outcome|]. intros _.
    destruct (assoc "auth_mechanism" (_config client c)) as [j|];
      [|discriminate H1].
    apply in_strs_true in H1 as (m & -> & Hm). exists m. split; [done|].
    set_solver. }
  destruct (in_strs _ [AUTH_SSL; AUTH_SSL_x509]) eqn:H2.
  - rewrite required_expand_then.
    destruct (assoc "ssl_keyfile" _) as [[| | |kf| |]|];
      try (intros [= <- <-]; split; [apply raised_outcome|done]).
    rewrite required_expand_then.
    destruct (assoc "ssl_certfile" _) as [[| | |cf| |]|];
      try (intros [= <- <-]; split; [apply raised_outcome|done]).
    rewrite get_lift_then.
    destruct (SSL_CERT_REQS _) as [reqs|e];
      [|intros [= <- <-]; split; [apply raised_outcome|done]].
    rewrite required_expand_then.
    destruct (assoc "ssl_ca_certs" _) as [[| | |ca| |]|];
      try (intros [= <- <-]; split; [apply raised_outcome|done]).
    rewrite get_then. intros H.
    split; [by eapply mongo_set_client_outcome|]. intros _.
    destruct (assoc "auth_mechanism" (_config client c)) as [j|];
      [|discriminate H2].
    apply in_strs_true in H2 as (m & -> & Hm). exists m. split; [done|].
    set_solver.
  - unfold raise_unsupported_auth_mechanism, raise. intros [= <- <-].
    split; [apply raised_outcome|done].
Qed.

Lemma connect_pymongo2_outcome (h : json) (c c' : connector client)
    (r : result unit) :
  _connect_pymongo2 client MongoClient h c = (r, c') ->
  outcome c r c' /\ (r = Ok tt -> connectable (_config client c)).
Proof.
  tidy.
  unfold _connect_pymongo2. rewrite !get_then.
  unfold connectable.
  destruct (in_strs _ [AUTH_NONE; AUTH_SCRAM_SHA_1]) eqn:H1.
  { intros H. split; [by eapply mongo_set_client_outcome|]. intros _.
    destruct (assoc "auth_mechanism" (_config client c)) as [j|];
      [|discriminate H1].
    apply in_strs_true in H1 as (m & -> & Hm). exists m. split; [done|].
    set_solver. }
  destruct (in_strs _ [AUTH_SSL; AUTH_SSL_x509]);
    unfold raise_unsupported_auth_mechanism, raise; intros [= <- <-];
    (split; [apply raised_outcome|done]).
Qed.

(** [connect] sets the client on success only, to what [MongoClient]
    returned for the one call made, and this needs [pymongo] and one of
    the four mechanisms; when it fails the client is the one from before,
    and either nothing was called or [MongoClient] raised the exception.
    The configuration never changes. *)
Theorem connect_outcome (h : json) (c c' : connector client)
    (r : result unit) :
  connect h c = (r, c') ->
  _config client c' = _config client c
  /\ (r = Ok tt ->
      PYMONGO_AVAILABLE = true
      /\ connectable (_config client c)
      /\ exists a x, MongoClient a = Ok x
           /\ _client client c' = Some x
           /\ calls client c' = (calls client c ++ [CallMongoClient a])%list)
  /\ (forall e, r = Raise e ->
      _client client c' = _client client c
      /\ (calls client c' = calls client c
          \/ exists a, MongoClient a = Raise e
               /\ calls client c'
                  = (calls client c ++ [CallMongoClient a])%list)).
Proof.
  tidy.
  assert (forall h0,
    bind client (_config_get_required client "url")
      (fun _ => if PYMONGO_AVAILABLE
                then if PYMONGO_3
                     then _connect_pymongo3 client MongoClient expanduser h0
                     else _connect_pymongo2 client MongoClient h0
                else raise client RuntimeError) c = (r, c') ->
    outcome c r c'
    /\ (r = Ok tt -> PYMONGO_AVAILABLE = true
                     /\ connectable (_config client c))) as Hk.
  { intros h0. rewrite required_then.
    destruct (assoc "url" _);
      [|intros [= <- <-]; split; [apply raised_outcome|done]].
    destruct PYMONGO_AVAILABLE;
      [|intros [= <- <-]; split; [apply raised_outcome|done]].
    destruct PYMONGO_3; intros H.
    - apply connect_pymongo3_outcome in H as [H1 H2]. split; [done|].
      intros Hr. split; [done|by apply H2].
    - apply connect_pymongo2_outcome in H as [H1 H2]. split; [done|].
      intros Hr. split; [done|by apply H2]. }
  unfold Connection.connect. intros H.
  assert (outcome c r c'
          /\ (r = Ok tt -> PYMONGO_AVAILABLE = true
                           /\ connectable (_config client c)))
    as [(H1 & H2 & H3) H4].
  { destruct h; try (apply (Hk _ H)).
    rewrite required_then in H.
    destruct (assoc "url" (_config client c)) as [u|] eqn:Hu.
    - by apply (Hk u).
    - injection H as <- <-. split; [apply raised_outcome|done]. }
  split; [exact H1|]. split; [|exact H3].
  intros Hr. destruct (H4 Hr) as [Ha Hc]. split; [done|]. split; [done|].
  by apply H2.
Qed.

(** [authenticate] does something for three mechanisms only.  For
    every other value of ['auth_mechanism'], and without one, it returns
    at once: no call is made and no connection is needed.  For
    [SCRAM-SHA-1] it needs the client first: a connector that is not
    connected raises [RuntimeError] before the user name or the password
    is read. *)
Theorem authenticate_cases (c : connector client) :
  let mechanism := match assoc "auth_mechanism" (_config client c) with
                   | Some x => x
                   | None => JNull
                   end in
  (eq_str mechanism AUTH_SCRAM_SHA_1 = false ->
   in_strs mechanism [AUTH_SSL; AUTH_SSL_x509] = false ->
   authenticate c = (Ok tt, c))
  /\ (eq_str mechanism AUTH_SCRAM_SHA_1 = true ->
      _client client c = None ->
      authenticate c = (Raise RuntimeError, c)).
Proof.
  tidy.
  intros mechanism. unfold Connection.authenticate. rewrite get_then.
  fold mechanism. split.
  - by intros -> ->.
  - intros -> Hc. unfold bind at 1. unfold get_client. by rewrite Hc.
Qed.

(** [logout] is stricter than [authenticate]: without
    ['auth_mechanism'] it raises [KeyError], with a value that is none
    of the four mechanisms [ValueError], in both cases without a call;
    with ['none'] it returns without a call. *)
Theorem logout_cases (c : connector client) :
  (assoc "auth_mechanism" (_config client c) = None ->
   logout c = (Raise KeyError, c))
  /\ (assoc "auth_mechanism" (_config client c) = Some (JStr AUTH_NONE) ->
      logout c = (Ok tt, c))
  /\ (forall j, assoc "auth_mechanism" (_config client c) = Some j ->
      in_strs j [AUTH_NONE; AUTH_SCRAM_SHA_1; AUTH_SSL; AUTH_SSL_x509]
      = false ->
      logout c = (Raise ValueError, c) /\ authenticate c = (Ok tt, c)).
Proof.
  tidy.
  unfold Connection.logout, Connection.authenticate.
  rewrite required_then, get_then. split; [|split].
  - by intros ->.
  - by intros ->.
  - intros j -> Hj.
    assert (eq_str j AUTH_SCRAM_SHA_1 = false
            /\ in_strs j [AUTH_SSL; AUTH_SSL_x509] = false
            /\ eq_str j AUTH_NONE = false) as (-> & -> & ->); [|done].
    destruct j as [| | |m| |]; try done. cbn [in_strs eq_str] in *.
    apply bool_decide_eq_false_1 in Hj.
    split; [|split]; try apply String.eqb_neq;
      try apply bool_decide_eq_false_2; set_solver.
Qed.

(** After a [connect] that succeeded, [logout] cannot fail by itself: it
    returns for ['none'], and otherwise its result is that of the one
    [logout] sent to the database ['admin'] or ['$external'] of the
    client that [connect] set. *)
Theorem logout_after_connect (h : json) (c c1 : connector client) :
  connect h c = (Ok tt, c1) ->
  exists x, _client client c1 = Some x
    /\ (logout c1 = (Ok tt, c1)
        \/ exists db, (db = JStr "admin" \/ db = JStr "$external")
             /\ logout c1
                = (db_logout x db,
                   Connector client (_config client c1) (_client client c1)
                     (calls client c1 ++ [CallLogout db]))).
Proof.
  tidy.
  intros H. apply connect_outcome in H as (Hcfg & Hok & _).
  destruct (Hok eq_refl) as (_ & (m & Hm & Hin) & a & x & _ & Hx & _).
  exists x. split; [exact Hx|]. rewrite <- Hcfg in Hm.
  unfold Connection.logout. rewrite required_then, Hm.
  assert (forall db,
    bind client (get_client client)
      (fun y => logout_db client db_logout y db) c1
    = (db_logout x db,
       Connector client (_config client c1) (_client client c1)
         (calls client c1 ++ [CallLogout db]))) as Hl.
  { intros db. clear -Hx. destruct c1 as [cfg cl cs].
    cbn [_client] in Hx. subst cl. reflexivity. }
  apply elem_of_cons in Hin as [->|Hin]; [by left|].
  apply elem_of_cons in Hin as [->|Hin].
  { right. exists (JStr "admin"). split; [by left|].
    replace (eq_str (JStr AUTH_SCRAM_SHA_1) AUTH_SCRAM_SHA_1) with true
      by reflexivity.
    apply Hl. }
  assert (m = AUTH_SSL \/ m = AUTH_SSL_x509) as Hs by set_solver.
  right. exists (JStr "$external"). split; [by right|].
  replace (eq_str (JStr m) AUTH_SCRAM_SHA_1) with false
    by (by destruct Hs as [->| ->]).
  replace (in_strs (JStr m) [AUTH_SSL; AUTH_SSL_x509]) with true
    by (by destruct Hs as [->| ->]).
  apply Hl.
Qed.

End connection_facts.

(** ** The subject of a certificate *)

Section subject_facts.
Import Py Connection.

Lemma rstrip_idemp (s : string) : rstrip (rstrip s) = rstrip s.
Proof.
  induction s as [|c r IH]; [done|]. cbn [rstrip].
  destruct (rstrip r) as [|d r'] eqn:Hr.
  - destruct (is_space c) eqn:Hc; [done|]. cbn [rstrip]. by rewrite Hc.
  - change (rstrip (String c (String d r')))
      with (match rstrip (String d r') with
            | EmptyString =>
                if is_space c then EmptyString else String c EmptyString
            | r'' => String c r''
            end).
    by rewrite IH.
Qed.

Lemma lstrip_rstrip (s : string) :
  lstrip (rstrip (lstrip s)) = rstrip (lstrip s).
Proof.
  assert (forall t, lstrip t = t -> lstrip (rstrip t) = rstrip t) as Hk.
  { intros [|c r]; [done|]. cbn [lstrip].
    destruct (is_space c) eqn:Hc.
    - intros Hl. exfalso. clear -Hl.
      assert (forall r, String.length (lstrip r) <= String.length r)%nat
        as Hlen.
      { induction r0 as [|d r0 IH]; [done|]. cbn [lstrip].
        destruct (is_space d); cbn [String.length]; lia. }
      apply (f_equal String.length) in Hl. specialize (Hlen r).
      cbn [String.length] in Hl. lia.
    - intros _. cbn [rstrip]. destruct (rstrip r); rewrite ?Hc;
        cbn [lstrip]; by rewrite Hc. }
  apply Hk. induction s as [|c r IH]; [done|]. cbn [lstrip].
  destruct (is_space c) eqn:Hc; [exact IH|]. cbn [lstrip]. by rewrite Hc.
Qed.

Variable check_output : string -> process.

(** The subject that [get_subject_from_certificate] returns is what
    follows ['subject='] on the first line of the output of [openssl],
    without white space at either end: stripping it again changes
    nothing.  A first line that does not start with ['subject='] fails
    the assertion, and [CalledProcessError] becomes [RuntimeError]. *)
Theorem subject_is_stripped (fn : string) :
  (forall s, get_subject_from_certificate check_output fn = Ok s ->
     strip s = s
     /\ exists txt rest, check_output fn = Output txt
          /\ strip_prefix "subject=" (first_line txt) = Some rest
          /\ s = strip rest)
  /\ (forall txt, check_output fn = Output txt ->
      strip_prefix "subject=" (first_line txt) = None ->
      get_subject_from_certificate check_output fn = Raise AssertionError)
  /\ (check_output fn = CalledProcessError ->
      get_subject_from_certificate check_output fn = Raise RuntimeError).
Proof.
  unfold get_subject_from_certificate. split; [|split].
  - intros s. destruct (check_output fn) as [txt| |e]; try done.
    destruct (strip_prefix "subject=" (first_line txt)) as [rest|] eqn:Hp;
      [|done].
    intros [= <-]. split; [|by exists txt, rest].
    unfold strip. by rewrite lstrip_rstrip, rstrip_idemp.
  - by intros txt -> ->.
  - by intros ->.
Qed.

End subject_facts.

(** ** The connector on concrete configurations *)

Section connection_examples.
Import Py Connection ConnectionExamples.

Local Abbreviation connect_ok :=
  (connect unit mongo_ok home true true).

Lemma connect_needs_url_witness :
  connect_ok (JStr "db.example.org") (__init__ unit [])
  = (Raise KeyError, __init__ unit []).
Proof.
  apply (connect_needs_url unit mongo_ok home true true). reflexivity.
Defined.

Lemma connect_outcome_witness :
  _config unit (snd (connect_ok JNull (__init__ unit scram_config)))
  = scram_config.
Proof.
  destruct (connect_ok JNull (__init__ unit scram_config)) as [r c'] eqn:H.
  apply (connect_outcome unit mongo_ok home true true) in H as (Hcfg & _).
  exact Hcfg.
Defined.

Lemma authenticate_cases_witness :
  authenticate unit auth_ok home openssl (__init__ unit bare_config)
  = (Ok tt, __init__ unit bare_config).
Proof.
  apply (proj1 (authenticate_cases unit auth_ok home openssl
                  (__init__ unit bare_config))); reflexivity.
Defined.

Lemma logout_cases_witness :
  logout unit logout_ok (__init__ unit gssapi_config)
  = (Raise ValueError, __init__ unit gssapi_config)
  /\ authenticate unit auth_ok home openssl (__init__ unit gssapi_config)
     = (Ok tt, __init__ unit gssapi_config).
Proof.
  apply (proj2 (proj2 (logout_cases unit auth_ok logout_ok home openssl
                         (__init__ unit gssapi_config)))
           (JStr "GSSAPI")); reflexivity.
Defined.

Lemma logout_after_connect_witness :
  exists x,
    _client unit (snd (connect_ok JNull (__init__ unit scram_config)))
    = Some x.
Proof.
  destruct (connect_ok JNull (__init__ unit scram_config)) as [r c1] eqn:H.
  assert (r = Ok tt) as -> by (by vm_compute in H; injection H as <- _).
  destruct (logout_after_connect unit mongo_ok logout_ok home true true
              JNull (__init__ unit scram_config) c1 H) as (x & Hx & _).
  by exists x.
Defined.

Lemma subject_is_stripped_witness :
  get_subject_from_certificate openssl "ann.pem" = Ok "CN=ann,O=lab"
  /\ strip "CN=ann,O=lab" = "CN=ann,O=lab".
Proof.
  split; [reflexivity|].
  apply (proj1 (subject_is_stripped openssl "ann.pem") "CN=ann,O=lab").
  reflexivity.
Defined.

End connection_examples.

(** * Hosts and credentials *)

Section host_facts.
Import Py Host.

Lemma getitem_any_str (j : json) (k : string) :
  getitem_any j (JStr k) = getitem j k.
Proof. by destruct j. Qed.

Lemma getitem_not_index (j : json) (k : string) :
  getitem j k <> Raise IndexError.
Proof.
  unfold getitem. destruct j; try done. by destruct (assoc k m).
Qed.

Section config_facts.
Variable load_config : result json.
Variable first_key : list (string * json) -> result json.

Local Abbreviation get_default_host :=
  (get_default_host load_config first_key).
Local Abbreviation get_host_config :=
  (get_host_config load_config first_key).

Lemma or_load_given (config : json) :
  config <> JNull -> or_load load_config config = Ok config.
Proof. by destruct config. Qed.

Lemma get_default_host_raises (config : json) :
  config <> JNull ->
  get_default_host config <> Raise KeyError
  /\ get_default_host config <> Raise IndexError.
Proof.
  intros Hc. unfold Host.get_default_host. rewrite (or_load_given _ Hc).
  cbn [mbind result_bind].
  destruct (getitem config "General") as [g|e] eqn:Hg; cbn [mbind result_bind].
  - destruct (getitem g "default_host") as [h|e] eqn:Hh; [done|].
    destruct e; try done.
    + destruct (getitem config "hosts") as [[| | | | |m]|e];
        cbn [mbind result_bind]; try done.
      * destruct (first_key m) as [x|[]]; done.
      * destruct e; done.
    + by apply getitem_not_index in Hh.
  - destruct e; try done.
    + destruct (getitem config "hosts") as [[| | | | |m]|e];
        cbn [mbind result_bind]; try done.
      * destruct (first_key m) as [x|[]]; done.
      * destruct e; done.
    + by apply getitem_not_index in Hg.
Qed.

(** With a configuration given, [get_host_config] never raises
    [KeyError]: a host that is not configured, or a configuration
    without ['hosts'], is a [ConfigError].  For a host given by name it
    returns exactly the item of that name under ['hosts']. *)
Theorem get_host_config_named (hostname config : json) :
  config <> JNull ->
  get_host_config hostname config <> Raise KeyError
  /\ (forall h cfg, hostname = JStr h ->
      get_host_config hostname config = Ok cfg
      <-> exists hosts, getitem config "hosts" = Ok hosts
            /\ getitem hosts h = Ok cfg)
  /\ (forall h, hostname = JStr h ->
      (getitem config "hosts" = Raise KeyError
       \/ exists hosts, getitem config "hosts" = Ok hosts
            /\ getitem hosts h = Raise KeyError) ->
      get_host_config hostname config = Raise ConfigError).
Proof.
  intros Hc. unfold Host.get_host_config. rewrite (or_load_given _ Hc).
  cbn [mbind result_bind]. split; [|split].
  - destruct hostname as [| | | | |]; cbn [mbind result_bind];
      try (destruct (getitem config "hosts") as [hosts|[]];
           cbn [mbind result_bind]; try done;
           by destruct (getitem_any hosts _) as [x|[]]).
    destruct (Host.get_default_host load_config first_key config)
      as [h|e] eqn:Hd; cbn [mbind result_bind].
    + destruct (getitem config "hosts") as [hosts|[]];
        cbn [mbind result_bind]; try done.
      by destruct (getitem_any hosts h) as [x|[]].
    + intros [= ->]. by destruct (get_default_host_raises config Hc).
  - intros h cfg ->. cbn [mbind result_bind].
    destruct (getitem config "hosts") as [hosts|e]; cbn [mbind result_bind].
    + rewrite getitem_any_str. split.
      * destruct (getitem hosts h) as [x|[]] eqn:Hx; try done.
        intros [= <-]. by exists hosts.
      * intros (hosts' & [= <-] & ->). done.
    + split; [by destruct e|]. by intros (hosts' & [=] & _).
  - intros h -> [Hk|(hosts & Hh & Hk)]; cbn [mbind result_bind].
    + by rewrite Hk.
    + rewrite Hh. cbn [mbind result_bind]. by rewrite getitem_any_str, Hk.
Qed.

(** The default host is taken as it is written: when
    ['General']['default_host'] names a host that is not under
    ['hosts'], [get_default_host] still returns it and
    [get_host_config] without host name raises [ConfigError], whatever
    other hosts are configured. *)
Theorem default_host_not_configured (config general : json) (h : string)
    (m : list (string * json)) :
  config <> JNull ->
  getitem config "General" = Ok general ->
  getitem general "default_host" = Ok (JStr h) ->
  getitem config "hosts" = Ok (JDict m) ->
  assoc h m = None ->
  get_default_host config = Ok (JStr h)
  /\ get_host_config JNull config = Raise ConfigError.
Proof.
  intros Hc Hg Hd Hh Hm.
  assert (get_default_host config = Ok (JStr h)) as Hdef.
  { unfold Host.get_default_host. rewrite (or_load_given _ Hc).
    cbn [mbind result_bind]. rewrite Hg. cbn [mbind result_bind].
    by rewrite Hd. }
  split; [exact Hdef|].
  unfold Host.get_host_config. rewrite (or_load_given _ Hc).
  cbn [mbind result_bind]. rewrite Hdef. cbn [mbind result_bind].
  rewrite Hh. cbn [mbind result_bind getitem_any]. by rewrite Hm.
Qed.

End config_facts.

Lemma assoc_setitem (k k' : string) (v : json) (m : list (string * json)) :
  assoc k (setitem k' v m) = if String.eqb k k' then Some v else assoc k m.
Proof.
  induction m as [|[k0 x] m IH]; cbn [setitem assoc].
  - done.
  - destruct (String.eqb k' k0) eqn:E0; cbn [assoc].
    + apply String.eqb_eq in E0. subst k0.
      by destruct (String.eqb k k').
    + rewrite IH. destruct (String.eqb k k') eqn:E; [|done].
      apply String.eqb_eq in E. subst k'. by rewrite E0.
Qed.

Section credentials_facts.
Variable getuser : string.
Variable get_credentials :
  list (string * json) -> terminal -> result json * terminal.

Local Abbreviation check_credentials :=
  (check_credentials getuser get_credentials).

(** [check_credentials] only ever adds ['username'] and ['password']:
    every item of the host configuration is kept with its value, and a
    configuration that is not for [SCRAM-SHA-1], or that has both items,
    comes back unchanged with nothing asked. *)
Theorem check_credentials_keeps (hostcfg hostcfg' : list (string * json))
    (t t' : terminal) (r : result unit) :
  check_credentials hostcfg t = (r, hostcfg', t') ->
  (forall k v, assoc k hostcfg = Some v -> assoc k hostcfg' = Some v)
  /\ (forall k, k <> "username" -> k <> "password" ->
      assoc k hostcfg' = assoc k hostcfg)
  /\ (assoc "auth_mechanism" hostcfg <> Some (JStr "SCRAM-SHA-1") ->
      r = Ok tt /\ hostcfg' = hostcfg /\ t' = t)
  /\ (contains "username" hostcfg = true ->
      contains "password" hostcfg = true ->
      r = Ok tt /\ hostcfg' = hostcfg /\ t' = t).
Proof.
  unfold Host.check_credentials.
  destruct (assoc "auth_mechanism" hostcfg) as [[| | |m| |]|] eqn:Ha;
    try (intros [= <- <- <-]; done).
  destruct (String.eqb_spec m "SCRAM-SHA-1") as [->|Hn];
    [|intros [= <- <- <-]; done].
  assert (forall k k0 v (m : list (string * json)) x,
            assoc k m = Some x -> contains k0 m = false ->
            assoc k (setitem k0 v m) = Some x) as Hkeep.
  { intros k k0 v m x Hk Hn. rewrite assoc_setitem.
    destruct (String.eqb_spec k k0) as [->|]; [|done].
    unfold contains in Hn. by rewrite Hk in Hn. }
  assert (forall k k0 v (m : list (string * json)),
            k <> k0 -> assoc k (setitem k0 v m) = assoc k m) as Hne.
  { intros k k0 v m Hk. rewrite assoc_setitem.
    by destruct (String.eqb_spec k k0). }
  destruct (contains "username" hostcfg) eqn:Hu.
  - destruct (contains "password" hostcfg) eqn:Hp.
    + intros [= <- <- <-]. done.
    + destruct (get_credentials hostcfg t) as [[pw|e] t1];
        intros [= <- <- <-].
      * split; [intros k v Hk; by apply Hkeep|].
        split; [intros k _ Hk; by apply Hne|]. split; [done|done].
      * done.
  - unfold input. destruct (typed t) as [|x rest].
    + intros [= <- <- <-]. done.
    + match goal with
      | |- context [setitem "username" ?u hostcfg] =>
          set (hc := setitem "username" u hostcfg)
      end.
      destruct (contains "password" hc) eqn:Hp.
      * intros [= <- <- <-].
        split; [intros k v Hk; by apply Hkeep|].
        split; [intros k Hk _; by apply Hne|]. split; [done|done].
      * destruct (get_credentials hc _) as [[pw|e] t1];
          intros [= <- <- <-].
        -- split; [intros k v Hk; apply Hkeep; [by apply Hkeep|done]|].
           split; [|split; [done|done]].
           intros k Hk1 Hk2. rewrite Hne by done. by apply Hne.
        -- split; [intros k v Hk; by apply Hkeep|].
           split; [intros k Hk _; by apply Hne|]. split; [done|done].
Qed.

End credentials_facts.

End host_facts.

(** ** Hosts on a concrete configuration *)

Section host_examples.
Import Py Host HostExamples.

Lemma get_host_config_named_witness :
  get_host_config no_load first (JStr "local") config
  = Ok (JDict [("url", JStr "localhost")]).
Proof.
  assert (config <> JNull) as Hc by done.
  destruct (get_host_config_named no_load first (JStr "local") config Hc)
    as (_ & H & _).
  apply (H "local"); [reflexivity|].
  exists (JDict [("local", JDict [("url", JStr "localhost")])]). by split.
Defined.

Lemma default_host_not_configured_witness :
  get_default_host no_load first config = Ok (JStr "gone")
  /\ get_host_config no_load first JNull config = Raise ConfigError.
Proof.
  apply (default_host_not_configured no_load first config
           (JDict [("default_host", JStr "gone")]) "gone"
           [("local", JDict [("url", JStr "localhost")])]); done.
Defined.

Lemma check_credentials_keeps_witness :
  assoc "url"
    (snd (fst (check_credentials "ann" stored_password scram_hostcfg
                 console)))
  = Some (JStr "localhost").
Proof.
  destruct (check_credentials "ann" stored_password scram_hostcfg console)
    as [[r h'] t'] eqn:H.
  destruct (check_credentials_keeps "ann" stored_password scram_hostcfg h'
              console t' r H) as (Hk & _).
  apply Hk. reflexivity.
Defined.

End host_examples.
